(** * Shaker dashboard: the derived-metrics computation of [app.py]

    [app.py] is a Streamlit script.  Once a CSV is uploaded it filters the
    table to one calendar date (lines 55-58), derives the solids-rate and
    screen-utilization columns when they are missing (lines 61-64), computes
    the summary statistics, the screen-life estimate and the anomaly message
    inside one [try] block (lines 68-95) and the solids-removal efficiency
    inside another (lines 125-134).

    The table is a pandas [DataFrame]: an ordered list of named columns of
    equal length.  A numeric column is [float64], IEEE binary64 cells, or
    [int64], 64-bit integer cells.  The definitions below are written once,
    over an interface [Scalar] of the binary64 arithmetic the script uses,
    and are read at two instances:

    - [binary64]: Rocq's primitive floats, the arithmetic the script runs on;
    - [xnum]: exact rationals extended with the two infinities and NaN, the
      same expressions without rounding.

    Exceptions are values of [exn]; a block that can raise returns a
    [result].  The table handed to [filter_date] is the one line 52 leaves:
    the upload with its [Date] column. *)

From Stdlib Require Import ZArith QArith Qcanon Qfield List String Bool Lia.
From Stdlib Require Import Sorted Lqa.
From Stdlib Require Import Floats.
Import ListNotations.

Set Implicit Arguments.
Set Warnings "-inexact-float".

Local Open Scope string_scope.
Local Open Scope Z_scope.

(** ** Exceptions and results *)

(** The exceptions of interest.  [KeyError c]: column [c] is not in the
    table.  [TypeError c]: column [c] does not hold numbers (pandas raises a
    [TypeError] or a [ValueError] depending on the operation; both are
    caught by the same [except Exception]).  [ZeroDivisionError] is what
    Python raises on [1 / 0] over its own numbers. *)
Inductive exn : Type :=
| KeyError (column_name : string)
| TypeError (column_name : string)
| ZeroDivisionError.

Inductive result (A : Type) : Type :=
| Ok (value : A)
| Err (e : exn).

Arguments Ok {A} value.
Arguments Err {A} e.

Definition bind {A B : Type} (r : result A) (k : A -> result B) : result B :=
  match r with
  | Ok a => k a
  | Err e => Err e
  end.

Notation "x <- r ;; k" := (bind r (fun x => k))
  (at level 61, r at next level, right associativity).

Definition is_ok {A : Type} (r : result A) : bool :=
  match r with Ok _ => true | Err _ => false end.

(** ** Scalars *)

(** The arithmetic of a numeric cell.  [s_ltb x y] is Python's [x < y]
    ([x > y] is [s_ltb y x]); [s_of_Z] reads an integer literal; [s_eps] is
    the literal [1e-5]; [s_nan] is the undefined value that pandas returns
    for the mean, minimum or maximum of no data. *)
Class Scalar (F : Type) : Type := {
  s_add : F -> F -> F;
  s_sub : F -> F -> F;
  s_mul : F -> F -> F;
  s_div : F -> F -> F;
  s_ltb : F -> F -> bool;
  s_of_Z : Z -> F;
  s_eps : F;
  s_nan : F;
  s_is_nan : F -> bool
}.

Declare Scope scalar_scope.
Delimit Scope scalar_scope with sc.
Infix "+" := s_add : scalar_scope.
Infix "-" := s_sub : scalar_scope.
Infix "*" := s_mul : scalar_scope.
Infix "/" := s_div : scalar_scope.
Infix "<?" := s_ltb : scalar_scope.
Notation "x >? y" := (s_ltb y x) (only parsing) : scalar_scope.
Notation "'lit' z" := (s_of_Z z%Z) (at level 5, z at level 0) : scalar_scope.

(** *** binary64 *)

Module Binary64.

(** The binary64 number nearest to a 64-bit integer: an integer literal of
    the script, or a cell of an [int64] column.  [of_uint63] covers the
    magnitudes below [2^63]; only [-2^63] has the magnitude [2^63]. *)
Definition of_Z (z : Z) : float :=
  match z with
  | Z0 => PrimFloat.zero
  | Zpos _ => PrimFloat.of_uint63 (Uint63.of_Z z)
  | Zneg p =>
      if Pos.eqb p 9223372036854775808
      then (-9223372036854775808)%float
      else PrimFloat.opp (PrimFloat.of_uint63 (Uint63.of_Z (Zpos p)))
  end.

Definition is_finite (x : float) : bool :=
  negb (PrimFloat.is_nan x) && negb (PrimFloat.is_infinity x).

End Binary64.

#[export] Instance binary64 : Scalar float := {
  s_add := PrimFloat.add;
  s_sub := PrimFloat.sub;
  s_mul := PrimFloat.mul;
  s_div := PrimFloat.div;
  s_ltb := PrimFloat.ltb;
  s_of_Z := Binary64.of_Z;
  s_eps := 1e-5%float;
  s_nan := PrimFloat.nan;
  s_is_nan := PrimFloat.is_nan
}.

(** *** Exact extended rationals *)

(** [Fin q] is the rational [q]; [PInf], [NInf] and [NaN] follow the IEEE
    rules for infinities and invalid operations.  There is one zero, read as
    [+0]: the only divisor of the script that can vanish is
    [in_rate + 1e-5], a sum, and a sum that cancels is [+0]. *)
Inductive xnum : Type :=
| Fin (q : Qc)
| PInf
| NInf
| NaN.

Module Exact.

Local Open Scope Qc_scope.

Definition sign (q : Qc) : comparison := q ?= 0.

Definition neg (x : xnum) : xnum :=
  match x with
  | Fin q => Fin (- q)
  | PInf => NInf
  | NInf => PInf
  | NaN => NaN
  end.

Definition add (x y : xnum) : xnum :=
  match x, y with
  | NaN, _ | _, NaN => NaN
  | PInf, NInf | NInf, PInf => NaN
  | PInf, _ | _, PInf => PInf
  | NInf, _ | _, NInf => NInf
  | Fin p, Fin q => Fin (p + q)
  end.

Definition sub (x y : xnum) : xnum := add x (neg y).

(** An infinity with the sign [c]; the invalid [0 * inf] is [NaN]. *)
Definition inf_of (c : comparison) : xnum :=
  match c with
  | Gt => PInf
  | Lt => NInf
  | Eq => NaN
  end.

Definition sign_x (x : xnum) : comparison :=
  match x with
  | Fin q => sign q
  | PInf => Gt
  | NInf => Lt
  | NaN => Eq
  end.

Definition mul_sign (c d : comparison) : comparison :=
  match c, d with
  | Eq, _ | _, Eq => Eq
  | Gt, Gt | Lt, Lt => Gt
  | Gt, Lt | Lt, Gt => Lt
  end.

Definition mul (x y : xnum) : xnum :=
  match x, y with
  | NaN, _ | _, NaN => NaN
  | Fin p, Fin q => Fin (p * q)
  | _, _ => inf_of (mul_sign (sign_x x) (sign_x y))
  end.

Definition div (x y : xnum) : xnum :=
  match x, y with
  | NaN, _ | _, NaN => NaN
  | Fin p, Fin q =>
      match sign q with
      | Eq => inf_of (sign p)
      | _ => Fin (p / q)
      end
  | Fin _, _ => Fin 0
  | _, Fin q =>
      match sign q with
      | Lt => neg x
      | _ => x
      end
  | _, _ => NaN
  end.

Definition ltb (x y : xnum) : bool :=
  match x, y with
  | NaN, _ | _, NaN => false
  | Fin p, Fin q => match p ?= q with Lt => true | _ => false end
  | NInf, NInf | PInf, _ | _, NInf => false
  | _, _ => true
  end.

Definition is_nan (x : xnum) : bool :=
  match x with NaN => true | _ => false end.

Definition of_Z (z : Z) : xnum := Fin (Q2Qc (inject_Z z)).

(** The decimal literal [1e-5]. *)
Definition eps : Qc := Q2Qc (1 # 100000).

End Exact.

#[export] Instance exact : Scalar xnum := {
  s_add := Exact.add;
  s_sub := Exact.sub;
  s_mul := Exact.mul;
  s_div := Exact.div;
  s_ltb := Exact.ltb;
  s_of_Z := Exact.of_Z;
  s_eps := Fin Exact.eps;
  s_nan := NaN;
  s_is_nan := Exact.is_nan
}.

(** ** Tables *)

(** A calendar date (year, month, day), the value of a [Date] cell. *)
Definition date : Type := (Z * Z * Z)%type.

Definition date_eqb (d e : date) : bool :=
  let '(y1, m1, d1) := d in
  let '(y2, m2, d2) := e in
  (y1 =? y2) && (m1 =? m2) && (d1 =? d2).

Section Frames.

Context {F : Type} `{Scalar F}.

Local Open Scope scalar_scope.

(** A column is a list of cells of one kind.  [NumCol]: dtype [float64],
    a missing cell being NaN.  [IntCol]: dtype [int64], what [read_csv]
    gives a column whose cells are all whole numbers; the cells lie in
    [-2^63, 2^63).  [TextCol]: strings.  [DateCol]: dates. *)
Inductive column : Type :=
| NumCol (xs : list F)
| TextCol (xs : list string)
| DateCol (xs : list date)
| IntCol (zs : list Z).

(** [df.columns] with the data of each column, in the order of the table. *)
Definition frame : Type := list (string * column).

Definition columns (df : frame) : list string := map fst df.

(** [c in df.columns] *)
Definition has_col (c : string) (df : frame) : bool :=
  existsb (String.eqb c) (columns df).

Fixpoint get (c : string) (df : frame) : option column :=
  match df with
  | [] => None
  | (n, v) :: rest => if String.eqb c n then Some v else get c rest
  end.

(** [df[c]]: raises [KeyError] when the column is absent. *)
Definition getitem (c : string) (df : frame) : result column :=
  match get c df with
  | Some v => Ok v
  | None => Err (KeyError c)
  end.

(** [df[c] = v]: replaces the column in place when it exists, appends it
    as the last column otherwise. *)
Fixpoint setitem (c : string) (v : column) (df : frame) : frame :=
  match df with
  | [] => [(c, v)]
  | (n, w) :: rest =>
      if String.eqb c n then (n, v) :: rest else (n, w) :: setitem c v rest
  end.

Definition col_len (c : column) : nat :=
  match c with
  | NumCol xs => List.length xs
  | TextCol xs => List.length xs
  | DateCol xs => List.length xs
  | IntCol zs => List.length zs
  end.

(** Every column of a [DataFrame] has the same number of rows. *)
Definition n_rows (df : frame) : nat :=
  match df with
  | [] => O
  | (_, c) :: _ => col_len c
  end.

Definition wf_frame (df : frame) : Prop :=
  Forall (fun nc => col_len (snd nc) = n_rows df) df.

(** The numbers of column [c] as binary64, for statistics and for
    arithmetic with a [float64] operand: an [int64] cell is converted to
    the nearest binary64 number.  Strings and dates are not numbers.  What
    pandas does with a text column of no rows depends on its version; no
    property below is about that case. *)
Definition as_num (c : string) (v : column) : result (list F) :=
  match v with
  | NumCol xs => Ok xs
  | IntCol zs => Ok (map s_of_Z zs)
  | _ => Err (TypeError c)
  end.

Fixpoint zip_with {A B C : Type} (f : A -> B -> C)
         (xs : list A) (ys : list B) : list C :=
  match xs, ys with
  | x :: xs', y :: ys' => f x y :: zip_with f xs' ys'
  | _, _ => []
  end.

(** *** Statistics of a column ([skipna=True]) *)

Definition valid (xs : list F) : list F :=
  filter (fun x => negb (s_is_nan x)) xs.

(** The additions run left to right.  numpy adds in another order from
    eight elements on, which changes nothing in exact arithmetic and at
    most the rounding in binary64. *)
Definition col_sum (xs : list F) : F := fold_left s_add xs (lit 0).

Definition mean (xs : list F) : F :=
  match valid xs with
  | [] => s_nan
  | v => col_sum v / lit (Z.of_nat (List.length v))
  end.

(** Of several cells that compare equal, zeros of either sign, the first
    is kept; numpy may return another of them. *)
Definition col_min (xs : list F) : F :=
  match valid xs with
  | [] => s_nan
  | x :: rest => fold_left (fun acc y => if y <? acc then y else acc) rest x
  end.

Definition col_max (xs : list F) : F :=
  match valid xs with
  | [] => s_nan
  | x :: rest => fold_left (fun acc y => if y >? acc then y else acc) rest x
  end.

(** *** Row selection *)

(** [xs[mask]]: the cells whose mask entry is [True], in their order. *)
Fixpoint take_mask {A : Type} (mask : list bool) (xs : list A) : list A :=
  match mask, xs with
  | b :: mask', x :: xs' =>
      if b then x :: take_mask mask' xs' else take_mask mask' xs'
  | _, _ => []
  end.

Definition col_filter (mask : list bool) (c : column) : column :=
  match c with
  | NumCol xs => NumCol (take_mask mask xs)
  | TextCol xs => TextCol (take_mask mask xs)
  | DateCol xs => DateCol (take_mask mask xs)
  | IntCol zs => IntCol (take_mask mask zs)
  end.

(** [df[mask]] *)
Definition filter_rows (mask : list bool) (df : frame) : frame :=
  map (fun nc => (fst nc, col_filter mask (snd nc))) df.

(** ** Configuration (lines 25-27) *)

Inductive mesh_type : Type := API_100 | API_140 | API_170 | API_200.

Definition SCREEN_MESH_CAPACITY (m : mesh_type) : Z :=
  match m with
  | API_100 => 250
  | API_140 => 200
  | API_170 => 160
  | API_200 => 120
  end.

(** ** Calendar filter (lines 55-58) *)

(** [df['Date'] == selected_date]; the select box returns [None] when it
    has no option to offer.  A cell that is not a date equals no date. *)
Definition date_mask (selected_date : option date) (c : column) : list bool :=
  match c with
  | DateCol ds =>
      map (fun d => match selected_date with
                    | Some s => date_eqb d s
                    | None => false
                    end) ds
  | NumCol xs => map (fun _ => false) xs
  | TextCol xs => map (fun _ => false) xs
  | IntCol zs => map (fun _ => false) zs
  end.

Definition filter_date (selected_date : option date) (df : frame) : frame :=
  match get "Date" df with
  | Some c => filter_rows (date_mask selected_date c) df
  | None => df
  end.

(** ** Screen utilization (lines 61-64) *)

Definition screen_col : string := "Screen Utilization (%)".
Definition solids_col : string := "Solids Volume Rate (gpm)".
Definition wob_col : string := "Weight on Bit (klbs)".
Definition flow_col : string := "MA_Flow_Rate (gal/min)".
Definition shaker_col : string := "SHAKER #3 (PERCENT)".
Definition bit_depth_col : string := "Bit Depth (feet)".
Definition hole_depth_col : string := "Hole Depth (feet)".

(** [w * f / 100], row by row, on binary64 operands *)
Definition solids_rate (w f : list F) : list F :=
  map (fun x => x / lit 100) (zip_with s_mul w f).

(** The [int64] value of an integer result: two's complement on 64 bits.
    numpy lets an [int64] product that leaves the range wrap around. *)
Definition wrap64 (z : Z) : Z := (z + 2 ^ 63) mod 2 ^ 64 - 2 ^ 63.

Definition int_mul (a b : Z) : Z := wrap64 (a * b).

(** [df[a] * df[b] / 100], row by row.  Two [int64] columns are
    multiplied in [int64]; as soon as one column is [float64] the other is
    converted and the product is taken in binary64.  The division by 100
    is in binary64 in both cases. *)
Definition rate_per_100 (na nb : string) (ca cb : column)
  : result (list F) :=
  match ca, cb with
  | IntCol ws, IntCol fs =>
      Ok (map (fun z => s_of_Z z / lit 100) (zip_with int_mul ws fs))
  | _, _ =>
      w <- as_num na ca ;;
      f <- as_num nb cb ;;
      Ok (solids_rate w f)
  end.

(** [(df[solids] / mesh_capacity) * 100], row by row *)
Definition utilization (mesh_capacity : Z) (s : list F) : list F :=
  map (fun x => (x / lit mesh_capacity) * lit 100) s.

(** This block is outside every [try]: an exception here stops the run. *)
Definition derive_utilization (mesh_capacity : Z) (df : frame)
  : result frame :=
  if negb (has_col screen_col df) then
    if has_col wob_col df && has_col flow_col df then
      cw <- getitem wob_col df ;;
      cf <- getitem flow_col df ;;
      r <- rate_per_100 wob_col flow_col cw cf ;;
      let df1 := setitem solids_col (NumCol r) df in
      cs <- getitem solids_col df1 ;;
      s <- as_num solids_col cs ;;
      Ok (setitem screen_col (NumCol (utilization mesh_capacity s)) df1)
    else Ok df
  else Ok df.

(** ** Summary (lines 68-95) *)

Inductive anomaly : Type :=
| Critical   (* [st.error]: shaker load anomalies detected *)
| Warning    (* [st.warning]: low shaker throughput *)
| Normal.    (* no message *)

(** Lines 89-92. *)
Definition classify_anomaly (shaker_avg shaker_max : F) : anomaly :=
  if (shaker_avg <? lit 0) || (shaker_max >? lit 150) then Critical
  else if shaker_avg <? lit 20 then Warning
  else Normal.

(** Line 81. *)
Definition screen_life (screen_avg : F) : F :=
  lit 120 - ((screen_avg / lit 100) * lit 30).

(** What the summary shows when no exception is raised. *)
Record stats : Type := {
  total_depth : F;
  shaker_avg : F;
  shaker_min : F;
  shaker_max : F;
  screen_avg : F;
  screen_min : F;
  screen_max : F;
  life : F;
  status : anomaly
}.

Definition depth_col (df : frame) : string :=
  if has_col bit_depth_col df then bit_depth_col else hole_depth_col.

(** The body of the [try]; [Err e] is the branch
    [st.warning(f"Summary stats unavailable: {e}")], reached before
    anything has been shown. *)
Definition summarize (df : frame) : result stats :=
  cd <- getitem (depth_col df) df ;;
  cl <- getitem shaker_col df ;;
  l <- as_num shaker_col cl ;;
  cu <- getitem screen_col df ;;
  u <- as_num screen_col cu ;;
  d <- as_num (depth_col df) cd ;;
  Ok {| total_depth := col_max d;
        shaker_avg := mean l;
        shaker_min := col_min l;
        shaker_max := col_max l;
        screen_avg := mean u;
        screen_min := col_min u;
        screen_max := col_max u;
        life := screen_life (mean u);
        status := classify_anomaly (mean l) (col_max l) |}.

(** ** Efficiency (lines 125-134) *)

(** [px.pie(values=[eff_avg, 100 - eff_avg],
            names=['Removed Solids', 'Losses'])] *)
Record pie : Type := {
  removed : F;
  losses : F
}.

(** Line 128, row by row. *)
Definition efficiency (out_rate in_rate : list F) : list F :=
  map (fun x => x * lit 100)
      (zip_with s_div out_rate (map (fun r => r + s_eps) in_rate)).

Definition compute_efficiency (df : frame) : result (list F * pie) :=
  cw <- getitem wob_col df ;;
  cf <- getitem flow_col df ;;
  in_rate <- rate_per_100 wob_col flow_col cw cf ;;
  co <- getitem shaker_col df ;;
  out_rate <- as_num shaker_col co ;;
  let eff := efficiency out_rate in_rate in
  let eff_avg := mean eff in
  Ok (eff, {| removed := eff_avg; losses := lit 100 - eff_avg |}).

(** ** One run on a table *)

(** The values computed from the table of one date. *)
Record derived_metrics : Type := {
  table : frame;
  summary : result stats;
  solids_removal : result (list F * pie)
}.

Definition metrics (mesh : mesh_type) (df : frame) : result derived_metrics :=
  df' <- derive_utilization (SCREEN_MESH_CAPACITY mesh) df ;;
  Ok {| table := df';
        summary := summarize df';
        solids_removal := compute_efficiency df' |}.

(** Lines 55-134 on the table with its [Date] column. *)
Definition dashboard (mesh : mesh_type) (selected_date : option date)
           (df : frame) : result derived_metrics :=
  metrics mesh (filter_date selected_date df).

End Frames.

Arguments column F : clear implicits.
Arguments frame F : clear implicits.
Arguments stats F : clear implicits.
Arguments pie F : clear implicits.
Arguments derived_metrics F : clear implicits.

(** * The other blocks of the script *)

Section Blocks.

Context {F : Type} `{Scalar F}.

Local Open Scope scalar_scope.

(** ** The options of the date select box (lines 56-57) *)

(** Dates in calendar order, as Python compares [datetime.date] values. *)
Definition date_leb (d e : date) : bool :=
  let '(y1, m1, d1) := d in
  let '(y2, m2, d2) := e in
  Z.ltb y1 y2 ||
  (Z.eqb y1 y2 && (Z.ltb m1 m2 || (Z.eqb m1 m2 && Z.leb d1 d2))).

(** [.unique()]: the values in the order of their first appearance. *)
Fixpoint unique_dates (ds : list date) : list date :=
  match ds with
  | [] => []
  | d :: rest =>
      d :: filter (fun e => negb (date_eqb e d)) (unique_dates rest)
  end.

Fixpoint insert_date (d : date) (ds : list date) : list date :=
  match ds with
  | [] => [d]
  | e :: rest => if date_leb d e then d :: ds else e :: insert_date d rest
  end.

(** [sorted(...)] on dates that are all different: the ascending list. *)
Definition sorted_dates (ds : list date) : list date :=
  fold_right insert_date [] ds.

(** [sorted(df['Date'].dropna().unique())]; the [Date] column has no null
    cell, line 51 having dropped the rows without a timestamp. *)
Definition date_options (df : frame F) : list date :=
  match get "Date" df with
  | Some (DateCol ds) => sorted_dates (unique_dates ds)
  | _ => []
  end.

(** [st.sidebar.selectbox(label, options)]: the option at the index the
    user chose, the first one by default; [None] when there is no option. *)
Definition selectbox (options : list date) (choice : nat) : option date :=
  nth_error options choice.

(** Lines 55-58 with the choice of the user. *)
Definition calendar_filter (choice : nat) (df : frame F) : frame F :=
  filter_date (selectbox (date_options df) choice) df.

(** ** The rows of the line chart (line 103) *)

(** The last [n] cells. *)
Definition tail {A : Type} (n : nat) (xs : list A) : list A :=
  skipn (List.length xs - n) xs.

Definition col_tail (n : nat) (c : column F) : column F :=
  match c with
  | NumCol xs => NumCol (tail n xs)
  | TextCol xs => TextCol (tail n xs)
  | DateCol xs => DateCol (tail n xs)
  | IntCol zs => IntCol (tail n zs)
  end.

(** [df.tail(n)] *)
Definition tail_rows (n : nat) (df : frame F) : frame F :=
  map (fun nc => (fst nc, col_tail n (snd nc))) df.

(** [df.tail(1000)], the table handed to [px.line]. *)
Definition chart_rows (df : frame F) : frame F := tail_rows 1000 df.

(** ** Drop detection (line 111) *)

(** [df['SHAKER #3 (PERCENT)'] < -10] *)
Definition drop_mask (l : list F) : list bool :=
  map (fun x => x <? lit (-10)) l.

(** [drop_df = df[df['SHAKER #3 (PERCENT)'] < -10]], inside the [try] of
    the drop-flag tab. *)
Definition detect_drops (df : frame F) : result (frame F) :=
  cl <- getitem shaker_col df ;;
  l <- as_num shaker_col cl ;;
  Ok (filter_rows (drop_mask l) df).

End Blocks.

(** * Example tables *)

Local Open Scope scalar_scope.

(** Two readings of 2024-01-01: loads 50 and -20, weight on bit 10, flow
    rate 200, depths 1000 and 1005. *)
Definition sample (F : Type) `{Scalar F} : frame F :=
  [ ("Date", DateCol [(2024, 1, 1); (2024, 1, 1)]);
    (shaker_col, NumCol [lit 50; lit (-20)]);
    (wob_col, NumCol [lit 10; lit 10]);
    (flow_col, NumCol [lit 200; lit 200]);
    (bit_depth_col, NumCol [lit 1000; lit 1005]) ].

Arguments sample F {_}.

(** The same table once [derive_utilization] has run with mesh API 100. *)
Definition derived_sample (F : Type) `{Scalar F} : frame F :=
  match derive_utilization (SCREEN_MESH_CAPACITY API_100) (sample F) with
  | Ok df => df
  | Err _ => []
  end.

Arguments derived_sample F {_}.

(** What the summary shows for it. *)
Definition sample_stats : stats float :=
  {| total_depth := 1005%float;
     shaker_avg := 15%float;
     shaker_min := (-20)%float;
     shaker_max := 50%float;
     screen_avg := 8%float;
     screen_min := 8%float;
     screen_max := 8%float;
     life := 117.6%float;
     status := Warning |}.

(** The same readings as [read_csv] types them when every cell of the file
    is a whole number. *)
Definition sample_int (F : Type) `{Scalar F} : frame F :=
  [ ("Date", DateCol [(2024, 1, 1); (2024, 1, 1)]);
    (shaker_col, IntCol [50; -20]);
    (wob_col, IntCol [10; 10]);
    (flow_col, IntCol [200; 200]);
    (bit_depth_col, IntCol [1000; 1005]) ].

Arguments sample_int F {_}.

(** One reading logged in raw units: weight on bit and flow rate are whole
    numbers of four thousand million. *)
Definition raw_units : frame float :=
  [ ("Date", DateCol [(2024, 1, 1)]);
    (shaker_col, NumCol [50%float]);
    (wob_col, IntCol [4000000000]);
    (flow_col, IntCol [4000000000]) ].

(** One reading off bottom whose load is far outside any percentage. *)
Definition huge_load : frame float :=
  [ ("Date", DateCol [(2024, 1, 1)]);
    (shaker_col, NumCol [1e302%float]);
    (wob_col, NumCol [0%float]);
    (flow_col, NumCol [200%float]) ].

(** Readings taken off bottom: no weight on the bit. *)
Definition off_bottom (F : Type) `{Scalar F} : frame F :=
  [ ("Date", DateCol [(2024, 1, 2); (2024, 1, 2)]);
    (shaker_col, NumCol [lit 50; lit (-20)]);
    (wob_col, NumCol [lit 0; lit 0]);
    (flow_col, NumCol [lit 200; lit 300]) ].

Arguments off_bottom F {_}.

(** One reading on bottom: load 50, weight on bit 10, flow rate 200. *)
Definition one_reading : frame float :=
  [ ("Date", DateCol [(2024, 1, 1)]);
    (shaker_col, NumCol [50%float]);
    (wob_col, NumCol [10%float]);
    (flow_col, NumCol [200%float]) ].

(** The two slices of the pie drawn for [one_reading]. *)
Definition one_reading_pie : pie float :=
  {| removed := 249.9998750000625%float;
     losses := (-149.9998750000625)%float |}.

(** A table left without rows: every timestamp of the upload failed to
    parse, so line 51 dropped every reading. *)
Definition no_rows (F : Type) `{Scalar F} : frame F :=
  [ ("Date", DateCol []);
    (shaker_col, NumCol []);
    (wob_col, NumCol []);
    (flow_col, NumCol []);
    (bit_depth_col, NumCol []) ].

Arguments no_rows F {_}.

(** The same when the upload held whole numbers only. *)
Definition no_rows_int (F : Type) `{Scalar F} : frame F :=
  [ ("Date", DateCol []);
    (shaker_col, IntCol []);
    (wob_col, IntCol []);
    (flow_col, IntCol []);
    (bit_depth_col, IntCol []) ].

Arguments no_rows_int F {_}.

(** The summary in which every statistic is the undefined value and no
    message is shown. *)
Definition undefined_stats (F : Type) `{Scalar F} : stats F :=
  {| total_depth := s_nan;
     shaker_avg := s_nan;
     shaker_min := s_nan;
     shaker_max := s_nan;
     screen_avg := s_nan;
     screen_min := s_nan;
     screen_max := s_nan;
     life := s_nan;
     status := Normal |}.

Arguments undefined_stats F {_}.

(** The readings of the end-to-end example without a depth column. *)
Definition no_depth (F : Type) `{Scalar F} : frame F :=
  [ ("Date", DateCol [(2024, 1, 1); (2024, 1, 1)]);
    (shaker_col, NumCol [lit 50; lit (-20)]);
    (wob_col, NumCol [lit 10; lit 10]);
    (flow_col, NumCol [lit 200; lit 200]) ].

Arguments no_depth F {_}.

(** An upload that brings its own solids-rate column but no utilization. *)
Definition with_solids : frame float :=
  [ ("Date", DateCol [(2024, 1, 1)]);
    (solids_col, NumCol [999%float]);
    (shaker_col, NumCol [50%float]);
    (wob_col, NumCol [10%float]);
    (flow_col, NumCol [200%float]) ].

(** A table that already carries a utilization column, next to a text
    column and without the flow rate. *)
Definition with_utilization : frame float :=
  [ ("Date", DateCol [(2024, 1, 1)]);
    ("Comment", TextCol ["trip out"]);
    (wob_col, NumCol [10%float]);
    (screen_col, NumCol [42%float]) ].

(** Three readings over two days, the later day first in the upload. *)
Definition two_days (F : Type) `{Scalar F} : frame F :=
  [ ("Date", DateCol [(2024, 1, 2); (2024, 1, 1); (2024, 1, 2)]);
    (shaker_col, NumCol [lit 30; lit (-15); lit 40]);
    (wob_col, NumCol [lit 10; lit 10; lit 12]);
    (flow_col, NumCol [lit 200; lit 200; lit 180]);
    (hole_depth_col, NumCol [lit 1010; lit 1000; lit 1020]) ].

Arguments two_days F {_}.

(** Three readings with the bit pulled back: weight on bit -0.001, flow
    rate 1, loads 50, -50 and 0. *)
Definition reversed_readings : frame float :=
  [ (shaker_col, NumCol [50; -50; 0]%float);
    (wob_col, NumCol [-0.001; -0.001; -0.001]%float);
    (flow_col, NumCol [1; 1; 1]%float) ].

(** An upload whose weight on bit was typed as text. *)
Definition text_wob : frame float :=
  [ ("Date", DateCol [(2024, 1, 1)]);
    (shaker_col, NumCol [50%float]);
    (wob_col, TextCol ["ten"]);
    (flow_col, NumCol [200%float]);
    (bit_depth_col, NumCol [1000%float]) ].

(** A table of the day with both depth columns and its utilization. *)
Definition both_depths : frame float :=
  [ ("Date", DateCol [(2024, 1, 1); (2024, 1, 1)]);
    (shaker_col, NumCol [50; nan]%float);
    (screen_col, NumCol [8; 9]%float);
    (hole_depth_col, NumCol [2000; 2010]%float);
    (bit_depth_col, NumCol [1500; 1490]%float) ].

(** The same with a bit depth exported as text. *)
Definition text_depth : frame float :=
  [ ("Date", DateCol [(2024, 1, 1)]);
    (shaker_col, NumCol [50%float]);
    (screen_col, NumCol [8%float]);
    (hole_depth_col, NumCol [2000%float]);
    (bit_depth_col, TextCol ["1,500"]) ].

(** * Observations and spec-side predicates *)

(** Row [i] of the two derived columns of [df] holds [solids] and [util]. *)
Definition derived_row {F : Type} `{Scalar F} (df : frame F) (i : nat)
           (solids util : F) : Prop :=
  (exists ss, get solids_col df = Some (NumCol ss) /\
              nth_error ss i = Some solids) /\
  (exists us, get screen_col df = Some (NumCol us) /\
              nth_error us i = Some util).

(** Row [i] of the efficiency series of [df] holds [e]. *)
Definition efficiency_row {F : Type} `{Scalar F} (df : frame F) (i : nat)
           (e : F) : Prop :=
  exists eff p, compute_efficiency df = Ok (eff, p) /\
                nth_error eff i = Some e.

(** [0 <= x <= 100], as the script would test it. *)
Definition in_percent_range {F : Type} `{Scalar F} (x : F) : Prop :=
  (x <? lit 0) = false /\ (x >? lit 100) = false.

(** The reading of "clamped or flagged" for the efficiency block: either
    the block shows its warning instead of the chart, or both slices of the
    chart lie between 0 and 100. *)
Definition clamped_or_flagged {F : Type} `{Scalar F}
           (r : result (list F * pie F)) : Prop :=
  match r with
  | Err _ => True
  | Ok (_, p) => in_percent_range (removed p) /\ in_percent_range (losses p)
  end.

(** A column of numbers: dtype [float64] or [int64]. *)
Definition is_numeric {F : Type} (c : column F) : bool :=
  match c with
  | NumCol _ | IntCol _ => true
  | _ => false
  end.

(** Both columns are [int64]: their product is taken in [int64]. *)
Definition both_int {F : Type} (ca cb : column F) : bool :=
  match ca, cb with
  | IntCol _, IntCol _ => true
  | _, _ => false
  end.

(** The cell of row [i] of a numeric column, read as a binary64 number. *)
Definition num_at {F : Type} `{Scalar F} (c : column F) (i : nat)
  : option F :=
  match c with
  | NumCol xs => nth_error xs i
  | IntCol zs => option_map s_of_Z (nth_error zs i)
  | _ => None
  end.

(** The range of [int64]. *)
Definition in_int64 (z : Z) : Prop := (- 2 ^ 63 <= z < 2 ^ 63)%Z.

(** The whole numbers from -100 to 100. *)
Definition whole_percent (n : Z) : Prop := (-100 <= n <= 100)%Z.

(** A numeric column of no rows. *)
Definition no_numbers {F : Type} (c : column F) : Prop :=
  c = NumCol [] \/ c = IntCol [].

(** The number of rows a mask keeps. *)
Definition count_true (mask : list bool) : nat :=
  List.length (filter (fun b => b) mask).

(** Equalities between rationals in canonical form. *)
Ltac qc_closed := apply Qc_is_canon; vm_compute; reflexivity.

Ltac qc_field :=
  apply Qc_is_canon;
  unfold Qcdiv, Qcinv, Qcmult, Qcplus, Qcopp, Qcminus, Q2Qc; cbn [this];
  rewrite ?Qred_correct.

(** Order and equations between rationals, read in [Q]. *)
Ltac qc_order :=
  unfold Qclt, Qcle, Qcminus, Qcdiv in *;
  unfold Qcinv, Qcmult, Qcplus, Qcopp, Q2Qc in *;
  cbn [this] in *; rewrite ?Qred_correct in *; unfold inject_Z in *.

(** * Properties *)

(** ** Lists and tables *)

Section FrameFacts.

Context {F : Type} `{Scalar F}.

Lemma has_col_get (c : string) (df : frame F) :
  has_col c df = match get c df with Some _ => true | None => false end.
Proof.
  unfold has_col, columns.
  induction df as [|[n v] rest IH]; simpl; [reflexivity|].
  destruct (String.eqb c n); simpl; [reflexivity | exact IH].
Qed.

Lemma has_col_false_get (c : string) (df : frame F) :
  has_col c df = false -> get c df = None.
Proof.
  rewrite has_col_get. destruct (get c df); [discriminate | reflexivity].
Qed.

Lemma get_has_col (c : string) (df : frame F) (v : column F) :
  get c df = Some v -> has_col c df = true.
Proof.
  intros Hg. rewrite has_col_get, Hg. reflexivity.
Qed.

Lemma get_setitem_same (c : string) (v : column F) (df : frame F) :
  get c (setitem c v df) = Some v.
Proof.
  induction df as [|[n w] rest IH]; simpl.
  - rewrite String.eqb_refl. reflexivity.
  - destruct (String.eqb c n) eqn:E; simpl; rewrite E; [reflexivity | exact IH].
Qed.

Lemma get_setitem_other (c c' : string) (v : column F) (df : frame F) :
  c <> c' -> get c' (setitem c v df) = get c' df.
Proof.
  intros Hne.
  induction df as [|[n w] rest IH]; simpl.
  - destruct (String.eqb c' c) eqn:E; [|reflexivity].
    apply String.eqb_eq in E. congruence.
  - destruct (String.eqb c n) eqn:E; simpl.
    + apply String.eqb_eq in E. subst n.
      destruct (String.eqb c' c) eqn:E'; [|reflexivity].
      apply String.eqb_eq in E'. congruence.
    + destruct (String.eqb c' n); [reflexivity | exact IH].
Qed.

Lemma has_col_setitem_other (c c' : string) (v : column F) (df : frame F) :
  c <> c' -> has_col c' (setitem c v df) = has_col c' df.
Proof.
  intros Hne. rewrite !has_col_get, get_setitem_other by exact Hne.
  reflexivity.
Qed.

(** Assigning a column keeps the columns in place; a new one goes last. *)
Lemma columns_setitem (c : string) (v : column F) (df : frame F) :
  columns (setitem c v df) =
  if has_col c df then columns df else (columns df ++ [c])%list.
Proof.
  unfold has_col, columns.
  induction df as [|[n w] rest IH]; simpl; [reflexivity|].
  destruct (String.eqb c n) eqn:E; simpl; [reflexivity|].
  rewrite IH. destruct (existsb (String.eqb c) (map fst rest)); reflexivity.
Qed.

Lemma nth_error_zip_with {A B C : Type} (f : A -> B -> C) xs ys i x y :
  nth_error xs i = Some x -> nth_error ys i = Some y ->
  nth_error (zip_with f xs ys) i = Some (f x y).
Proof.
  revert ys i.
  induction xs as [|a xs IH]; intros [|b ys] [|i]; simpl;
    try discriminate.
  - intros [= ->] [= ->]. reflexivity.
  - apply IH.
Qed.

Lemma length_zip_with {A B C : Type} (f : A -> B -> C) xs ys :
  List.length (zip_with f xs ys) = Nat.min (List.length xs) (List.length ys).
Proof.
  revert ys. induction xs as [|a xs IH]; intros [|b ys]; simpl;
    try reflexivity.
  f_equal. apply IH.
Qed.

Lemma nth_error_solids_rate (ws fs : list F) i w f :
  nth_error ws i = Some w -> nth_error fs i = Some f ->
  nth_error (solids_rate ws fs) i = Some (w * f / lit 100).
Proof.
  intros Hw Hf. unfold solids_rate.
  rewrite nth_error_map, (nth_error_zip_with _ _ _ _ Hw Hf). reflexivity.
Qed.

Lemma nth_error_utilization (mesh : Z) (ss : list F) i s :
  nth_error ss i = Some s ->
  nth_error (utilization mesh ss) i = Some ((s / lit mesh) * lit 100).
Proof.
  intros Hs. unfold utilization. rewrite nth_error_map, Hs. reflexivity.
Qed.

(** What [derive_utilization] returns when it computes on numeric
    columns. *)
Lemma derive_utilization_computes (mesh : Z) (df : frame F) ws fs :
  has_col screen_col df = false ->
  get wob_col df = Some (NumCol ws) ->
  get flow_col df = Some (NumCol fs) ->
  derive_utilization mesh df =
  Ok (setitem screen_col
        (NumCol (utilization mesh (solids_rate ws fs)))
        (setitem solids_col (NumCol (solids_rate ws fs)) df)).
Proof.
  intros Hs Hw Hf. unfold derive_utilization, getitem.
  rewrite Hs, (get_has_col _ _ Hw), (get_has_col _ _ Hf), Hw, Hf. simpl.
  rewrite get_setitem_same. reflexivity.
Qed.

End FrameFacts.

(** ** The product of two columns over 100 *)

Section RateFacts.

Context {F : Type} `{Scalar F}.

Lemma wrap64_small (z : Z) : in_int64 z -> wrap64 z = z.
Proof.
  unfold in_int64, wrap64. intros Hz.
  rewrite Z.mod_small; lia.
Qed.

Lemma num_at_numeric (c : column F) (i : nat) (x : F) :
  num_at c i = Some x -> is_numeric c = true.
Proof.
  destruct c; simpl; (discriminate || reflexivity).
Qed.

Lemma is_numeric_as_num (c : string) (v : column F) :
  is_numeric v = true -> exists xs, as_num c v = Ok xs.
Proof.
  destruct v; simpl; try discriminate; eauto.
Qed.

Lemma as_num_num_at (c : string) (v : column F) (xs : list F) (i : nat) :
  as_num c v = Ok xs -> nth_error xs i = num_at v i.
Proof.
  destruct v; simpl; try discriminate; intros [= <-];
    [reflexivity | apply nth_error_map].
Qed.

(** With a [float64] column among the two, the product is taken in
    binary64. *)
Lemma rate_per_100_mixed (na nb : string) (ca cb : column F) :
  both_int ca cb = false ->
  rate_per_100 na nb ca cb =
  (w <- as_num na ca ;; f <- as_num nb cb ;; Ok (solids_rate w f)).
Proof.
  destruct ca; try reflexivity. destruct cb; try reflexivity.
  discriminate.
Qed.

Lemma rate_per_100_ok (na nb : string) (ca cb : column F) :
  is_numeric ca = true -> is_numeric cb = true ->
  exists r, rate_per_100 na nb ca cb = Ok r.
Proof.
  destruct ca, cb; simpl; try discriminate; eauto.
Qed.

Lemma rate_per_100_row (na nb : string) (ca cb : column F) (r : list F)
      (i : nat) (w f : F) :
  rate_per_100 na nb ca cb = Ok r -> both_int ca cb = false ->
  num_at ca i = Some w -> num_at cb i = Some f ->
  nth_error r i = Some (w * f / lit 100).
Proof.
  intros Hr Hb Hw Hf. rewrite (rate_per_100_mixed na nb _ _ Hb) in Hr.
  unfold bind in Hr.
  destruct (as_num na ca) as [ws|] eqn:Ea; [|discriminate].
  destruct (as_num nb cb) as [fs|] eqn:Eb; [|discriminate].
  injection Hr as <-. apply nth_error_solids_rate.
  - rewrite (as_num_num_at _ _ i Ea). exact Hw.
  - rewrite (as_num_num_at _ _ i Eb). exact Hf.
Qed.

Lemma rate_per_100_row_int (na nb : string) (ws fs : list Z) (r : list F)
      (i : nat) (w f : Z) :
  rate_per_100 na nb (IntCol ws) (IntCol fs) = Ok r ->
  nth_error ws i = Some w -> nth_error fs i = Some f ->
  nth_error r i = Some (lit (int_mul w f) / lit 100).
Proof.
  simpl. intros [= <-] Hw Hf.
  rewrite nth_error_map, (nth_error_zip_with _ _ _ _ Hw Hf). reflexivity.
Qed.

(** What [derive_utilization] returns when it computes. *)
Lemma derive_utilization_rate (mesh : Z) (df : frame F) (cw cf : column F)
      (r : list F) :
  has_col screen_col df = false ->
  get wob_col df = Some cw -> get flow_col df = Some cf ->
  rate_per_100 wob_col flow_col cw cf = Ok r ->
  derive_utilization mesh df =
  Ok (setitem screen_col (NumCol (utilization mesh r))
        (setitem solids_col (NumCol r) df)).
Proof.
  intros Hs Hw Hf Hr. unfold derive_utilization, getitem.
  rewrite Hs, (get_has_col _ _ Hw), (get_has_col _ _ Hf), Hw, Hf. simpl.
  rewrite Hr. simpl. rewrite get_setitem_same. reflexivity.
Qed.

Lemma derived_row_of_rate (mesh : Z) (df : frame F) (r : list F) (i : nat)
      (x : F) :
  nth_error r i = Some x ->
  derived_row (setitem screen_col (NumCol (utilization mesh r))
                 (setitem solids_col (NumCol r) df))
              i x (x / lit mesh * lit 100).
Proof.
  intros Hx. split.
  - exists r. split; [|exact Hx].
    rewrite get_setitem_other by discriminate. apply get_setitem_same.
  - exists (utilization mesh r). split; [apply get_setitem_same|].
    apply nth_error_utilization. exact Hx.
Qed.

End RateFacts.

(** ** Anomaly classification *)

(** C1.  [classify_anomaly] depends on the mean and the maximum of the
    shaker load only and takes the first rule that matches: Critical when
    [mean < 0] or [max > 150], else Warning when [mean < 20], else Normal.
    In binary64: mean -1 is Critical whatever the maximum; mean 25 with
    maximum 160 is Critical; mean 10 with maximum 50 is Warning; mean 50
    with maximum 60 is Normal; and the loads 50 and -20 of the end-to-end
    example, of mean 15, are classified Warning. *)
Theorem classify_anomaly_first_match :
  (forall (F : Type) (S : Scalar F) (m x : F),
      ((m <? lit 0) = true \/ (x >? lit 150) = true ->
       classify_anomaly m x = Critical) /\
      ((m <? lit 0) = false -> (x >? lit 150) = false ->
       (m <? lit 20) = true ->
       classify_anomaly m x = Warning) /\
      ((m <? lit 0) = false -> (x >? lit 150) = false ->
       (m <? lit 20) = false ->
       classify_anomaly m x = Normal)) /\
  (forall x : float, classify_anomaly (-1)%float x = Critical) /\
  classify_anomaly 25%float 160%float = Critical /\
  classify_anomaly 10%float 50%float = Warning /\
  classify_anomaly 50%float 60%float = Normal /\
  mean [50; -20]%float = 15%float /\
  classify_anomaly (mean [50; -20]%float) (col_max [50; -20]%float) = Warning.
Proof.
  assert (rules : forall (F : Type) (S : Scalar F) (m x : F),
      ((m <? lit 0) = true \/ (x >? lit 150) = true ->
       classify_anomaly m x = Critical) /\
      ((m <? lit 0) = false -> (x >? lit 150) = false ->
       (m <? lit 20) = true ->
       classify_anomaly m x = Warning) /\
      ((m <? lit 0) = false -> (x >? lit 150) = false ->
       (m <? lit 20) = false ->
       classify_anomaly m x = Normal)).
  { intros F S m x. unfold classify_anomaly. repeat split.
    - intros [Hm | Hx].
      + rewrite Hm. reflexivity.
      + rewrite Hx, orb_true_r. reflexivity.
    - intros Hm Hx Hw. rewrite Hm, Hx, Hw. reflexivity.
    - intros Hm Hx Hw. rewrite Hm, Hx, Hw. reflexivity. }
  split; [exact rules|].
  split.
  { intros x. apply (rules float binary64). left. reflexivity. }
  repeat split; vm_compute; reflexivity.
Qed.

Lemma classify_anomaly_first_match_witness :
  classify_anomaly (-1)%float 0%float = Critical /\
  classify_anomaly 25%float 160%float = Critical /\
  classify_anomaly 10%float 50%float = Warning /\
  classify_anomaly 50%float 60%float = Normal.
Proof.
  pose proof (proj1 classify_anomaly_first_match float binary64) as rules.
  split; [|split; [|split]].
  - apply (rules (-1)%float 0%float). left. reflexivity.
  - apply (rules 25%float 160%float). right. reflexivity.
  - apply (rules 10%float 50%float); reflexivity.
  - apply (rules 50%float 60%float); reflexivity.
Defined.

(** ** Screen utilization *)

(** C2.  When the table already has a [Screen Utilization (%)] column,
    [derive_utilization] returns the table as it is, whatever its other
    columns; the same when the weight-on-bit or the flow-rate column is
    missing.  A result that differs from the input arises only when the
    utilization column is absent and both other columns are present. *)
Theorem derive_utilization_passes_through :
  forall (F : Type) (S : Scalar F) (mesh_capacity : Z) (df : frame F),
    (has_col screen_col df = true ->
     derive_utilization mesh_capacity df = Ok df) /\
    (has_col wob_col df && has_col flow_col df = false ->
     derive_utilization mesh_capacity df = Ok df) /\
    (forall df' : frame F,
        derive_utilization mesh_capacity df = Ok df' -> df' <> df ->
        has_col screen_col df = false /\
        has_col wob_col df = true /\ has_col flow_col df = true).
Proof.
  intros F S mesh_capacity df. unfold derive_utilization.
  split; [|split].
  - intros Hs. rewrite Hs. reflexivity.
  - intros Hwf. rewrite Hwf. destruct (has_col screen_col df); reflexivity.
  - intros df'.
    destruct (has_col screen_col df); simpl.
    + intros [= ->] Hne. congruence.
    + destruct (has_col wob_col df); simpl.
      * destruct (has_col flow_col df); simpl.
        -- intros _ _. repeat split.
        -- intros [= ->] Hne. congruence.
      * intros [= ->] Hne. congruence.
Qed.

Lemma derive_utilization_passes_through_witness :
  derive_utilization 200 with_utilization = Ok with_utilization /\
  derive_utilization 250 with_utilization = Ok with_utilization /\
  derive_utilization 250 (sample float) <> Ok (sample float) /\
  has_col screen_col (sample float) = false /\
  has_col wob_col (sample float) = true /\
  has_col flow_col (sample float) = true.
Proof.
  split.
  { apply (proj1 (derive_utilization_passes_through binary64 200
                    with_utilization)).
    reflexivity. }
  split.
  - apply (proj1 (proj2 (derive_utilization_passes_through binary64 250
                           with_utilization))).
    reflexivity.
  - split; [vm_compute; discriminate|].
    destruct (derive_utilization 250 (sample float)) as [df'|e] eqn:E;
      [|vm_compute in E; discriminate].
    apply (proj2 (proj2 (derive_utilization_passes_through binary64 250
                           (sample float))) df' E).
    vm_compute in E. injection E as <-. discriminate.
Defined.




(** ** Summary statistics *)

Section SummaryFacts.

Context {F : Type} `{Scalar F}.

(** Whatever the summary shows, the screen life and the status are
    computed from the means and the maximum it shows. *)
Lemma summarize_ok_inv (df : frame F) (s : stats F) :
  summarize df = Ok s ->
  life s = screen_life (screen_avg s) /\
  status s = classify_anomaly (shaker_avg s) (shaker_max s).
Proof.
  unfold summarize, bind.
  destruct (getitem (depth_col df) df) as [cd|]; [|discriminate].
  destruct (getitem shaker_col df) as [cl|]; [|discriminate].
  destruct (as_num shaker_col cl) as [l|]; [|discriminate].
  destruct (getitem screen_col df) as [cu|]; [|discriminate].
  destruct (as_num screen_col cu) as [u|]; [|discriminate].
  destruct (as_num (depth_col df) cd) as [d|]; [|discriminate].
  intros [= <-]. split; reflexivity.
Qed.

(** A missing column makes the whole block fail. *)
Lemma summarize_missing_depth (df : frame F) :
  has_col bit_depth_col df = false ->
  has_col hole_depth_col df = false ->
  summarize df = Err (KeyError hole_depth_col).
Proof.
  intros Hb Hh. unfold summarize, getitem, depth_col.
  rewrite Hb, (has_col_false_get _ _ Hh). reflexivity.
Qed.

End SummaryFacts.



(** In binary64 the two expressions [120 - (u / 100) * 30] and
    [120 - 0.3 * u] round alike at every whole percentage from 0 to 100. *)
Remark screen_life_binary64_percent :
  Forall (fun n : Z =>
            screen_life (Binary64.of_Z n) =
            (120 - 0.3 * Binary64.of_Z n)%float)
         (map Z.of_nat (seq 0 101)).
Proof.
  repeat constructor.
Qed.

(** Beyond that range they can differ in the last place. *)
Remark screen_life_binary64_rounding :
  screen_life 109%float <> (120 - 0.3 * 109)%float.
Proof.
  intros Heq.
  apply (f_equal (fun x => PrimFloat.eqb x (120 - 0.3 * 109)%float)) in Heq.
  vm_compute in Heq. discriminate.
Qed.

(** ** Solids-removal efficiency *)

Section EfficiencyFacts.

Context {F : Type} `{Scalar F}.

Lemma getitem_err (c : string) (df : frame F) (e : exn) :
  getitem c df = Err e -> e = KeyError c.
Proof.
  unfold getitem. destruct (get c df); [discriminate|].
  intros [= <-]. reflexivity.
Qed.

Lemma as_num_err (c : string) (v : column F) (e : exn) :
  as_num c v = Err e -> e = TypeError c.
Proof.
  destruct v; simpl; try discriminate; intros [= <-]; reflexivity.
Qed.

Lemma as_num_err_inv (c : string) (v : column F) (e : exn) :
  as_num c v = Err e -> e = TypeError c /\ is_numeric v = false.
Proof.
  destruct v; simpl; try discriminate; intros [= <-]; auto.
Qed.

Lemma rate_per_100_err_inv (na nb : string) (ca cb : column F) (e : exn) :
  rate_per_100 na nb ca cb = Err e ->
  (e = TypeError na /\ is_numeric ca = false) \/
  (e = TypeError nb /\ is_numeric cb = false).
Proof.
  destruct ca, cb; simpl; try discriminate; intros [= <-]; auto.
Qed.

Lemma compute_efficiency_numeric (df : frame F) (ws fs ls : list F) :
  get wob_col df = Some (NumCol ws) ->
  get flow_col df = Some (NumCol fs) ->
  get shaker_col df = Some (NumCol ls) ->
  compute_efficiency df =
  Ok (efficiency ls (solids_rate ws fs),
      {| removed := mean (efficiency ls (solids_rate ws fs));
         losses := lit 100 - mean (efficiency ls (solids_rate ws fs)) |}).
Proof.
  intros Hw Hf Hl. unfold compute_efficiency, getitem.
  rewrite Hw, Hf, Hl. reflexivity.
Qed.

Lemma compute_efficiency_rate (df : frame F) (cw cf co : column F)
      (r o : list F) :
  get wob_col df = Some cw -> get flow_col df = Some cf ->
  get shaker_col df = Some co ->
  rate_per_100 wob_col flow_col cw cf = Ok r ->
  as_num shaker_col co = Ok o ->
  compute_efficiency df =
  Ok (efficiency o r,
      {| removed := mean (efficiency o r);
         losses := lit 100 - mean (efficiency o r) |}).
Proof.
  intros Hw Hf Hl Hr Ho. unfold compute_efficiency, getitem.
  rewrite Hw, Hf, Hl. simpl. rewrite Hr. simpl. rewrite Ho. reflexivity.
Qed.

(** The block returns a result on every table whose three columns hold
    numbers. *)
Lemma compute_efficiency_on_numbers (df : frame F) (cw cf co : column F) :
  get wob_col df = Some cw -> get flow_col df = Some cf ->
  get shaker_col df = Some co ->
  is_numeric cw = true -> is_numeric cf = true -> is_numeric co = true ->
  exists eff p, compute_efficiency df = Ok (eff, p).
Proof.
  intros Hw Hf Hl Hnw Hnf Hnl.
  destruct (rate_per_100_ok wob_col flow_col _ _ Hnw Hnf) as [r Hr].
  destruct (is_numeric_as_num shaker_col _ Hnl) as [o Ho].
  rewrite (compute_efficiency_rate _ Hw Hf Hl Hr Ho). eauto.
Qed.

(** The exceptions of the block, with their cause. *)
Lemma compute_efficiency_err_inv (df : frame F) (e : exn) :
  compute_efficiency df = Err e ->
  exists c,
    In c [wob_col; flow_col; shaker_col] /\
    ((e = KeyError c /\ get c df = None) \/
     (e = TypeError c /\
      exists v, get c df = Some v /\ is_numeric v = false)).
Proof.
  unfold compute_efficiency, getitem, bind.
  destruct (get wob_col df) as [cw|] eqn:Hw.
  2:{ intros [= <-]. exists wob_col. simpl. auto. }
  destruct (get flow_col df) as [cf|] eqn:Hf.
  2:{ intros [= <-]. exists flow_col. simpl. auto. }
  destruct (rate_per_100 wob_col flow_col cw cf) as [r|e3] eqn:E3.
  2:{ intros [= <-].
      destruct (rate_per_100_err_inv _ _ _ _ E3) as [[-> Hn] | [-> Hn]].
      - exists wob_col. simpl. split; [auto|]. right. eauto.
      - exists flow_col. simpl. split; [auto|]. right. eauto. }
  destruct (get shaker_col df) as [co|] eqn:Hl.
  2:{ intros [= <-]. exists shaker_col. simpl. auto. }
  destruct (as_num shaker_col co) as [o|e6] eqn:E6; [discriminate|].
  intros [= <-]. destruct (as_num_err_inv _ _ E6) as [-> Hn].
  exists shaker_col. simpl. split; [auto|]. right. eauto.
Qed.

Lemma nth_error_efficiency (ls rs : list F) i l r :
  nth_error ls i = Some l -> nth_error rs i = Some r ->
  nth_error (efficiency ls rs) i = Some (l / (r + s_eps) * lit 100).
Proof.
  intros Hl Hr. unfold efficiency.
  rewrite nth_error_map.
  rewrite (nth_error_zip_with s_div ls (map (fun r => r + s_eps) rs) i
             (x := l) (y := r + s_eps)); [reflexivity | exact Hl |].
  rewrite nth_error_map, Hr. reflexivity.
Qed.

Lemma efficiency_row_numeric (df : frame F) (ws fs ls : list F) i w f l :
  get wob_col df = Some (NumCol ws) ->
  get flow_col df = Some (NumCol fs) ->
  get shaker_col df = Some (NumCol ls) ->
  nth_error ws i = Some w -> nth_error fs i = Some f ->
  nth_error ls i = Some l ->
  efficiency_row df i (l / (w * f / lit 100 + s_eps) * lit 100).
Proof.
  intros Hw Hf Hl Hwi Hfi Hli. unfold efficiency_row.
  rewrite (compute_efficiency_numeric _ Hw Hf Hl).
  do 2 eexists. split; [reflexivity|].
  apply nth_error_efficiency; [exact Hli|].
  apply nth_error_solids_rate; assumption.
Qed.

(** Row [i] of the efficiency from row [i] of the in-rate. *)
Lemma efficiency_row_of_rate (df : frame F) (cw cf co : column F)
      (r : list F) (i : nat) (x l : F) :
  get wob_col df = Some cw -> get flow_col df = Some cf ->
  get shaker_col df = Some co ->
  rate_per_100 wob_col flow_col cw cf = Ok r ->
  nth_error r i = Some x -> num_at co i = Some l ->
  efficiency_row df i (l / (x + s_eps) * lit 100).
Proof.
  intros Hw Hf Hl Hr Hx Hli. unfold efficiency_row.
  destruct (is_numeric_as_num shaker_col _ (num_at_numeric _ _ Hli))
    as [o Ho].
  rewrite (compute_efficiency_rate _ Hw Hf Hl Hr Ho).
  do 2 eexists. split; [reflexivity|].
  apply nth_error_efficiency; [|exact Hx].
  rewrite (as_num_num_at _ _ i Ho). exact Hli.
Qed.

Lemma efficiency_row_mixed (df : frame F) (cw cf co : column F)
      (i : nat) (w f l : F) :
  get wob_col df = Some cw -> get flow_col df = Some cf ->
  get shaker_col df = Some co ->
  both_int cw cf = false ->
  num_at cw i = Some w -> num_at cf i = Some f -> num_at co i = Some l ->
  efficiency_row df i (l / (w * f / lit 100 + s_eps) * lit 100).
Proof.
  intros Hw Hf Hl Hb Hwi Hfi Hli.
  destruct (rate_per_100_ok wob_col flow_col _ _
              (num_at_numeric _ _ Hwi) (num_at_numeric _ _ Hfi)) as [r Hr].
  apply (efficiency_row_of_rate _ _ Hw Hf Hl Hr); [|exact Hli].
  apply (rate_per_100_row _ _ _ _ i Hr Hb Hwi Hfi).
Qed.

Lemma efficiency_row_ints (df : frame F) (ws fs : list Z) (co : column F)
      (i : nat) (w f : Z) (l : F) :
  get wob_col df = Some (IntCol ws) -> get flow_col df = Some (IntCol fs) ->
  get shaker_col df = Some co ->
  nth_error ws i = Some w -> nth_error fs i = Some f ->
  num_at co i = Some l ->
  efficiency_row df i (l / (lit (int_mul w f) / lit 100 + s_eps) * lit 100).
Proof.
  intros Hw Hf Hl Hwi Hfi Hli.
  apply (efficiency_row_of_rate _ _ Hw Hf Hl eq_refl); [|exact Hli].
  apply (@rate_per_100_row_int F _ wob_col flow_col ws fs _ i w f
           eq_refl Hwi Hfi).
Qed.

End EfficiencyFacts.

(** *** Zero weight on bit in binary64 *)

Lemma binary64_finite_cases (f : float) :
  Binary64.is_finite f = true ->
  (exists s, Prim2SF f = S754_zero s) \/
  (exists s m e, Prim2SF f = S754_finite s m e).
Proof.
  unfold Binary64.is_finite, PrimFloat.is_nan, PrimFloat.is_infinity.
  rewrite !eqb_spec, abs_spec.
  destruct (Prim2SF f) as [s|s| |s m e] eqn:E.
  - intros _. left. eauto.
  - intros Hf. exfalso. revert Hf. vm_compute. destruct s; discriminate.
  - intros Hf. exfalso. revert Hf. vm_compute. discriminate.
  - intros _. right. eauto.
Qed.

(** [0 * f] is a zero for every finite [f], and [1e-5] absorbs it. *)
Lemma binary64_zero_in_rate (f : float) :
  Binary64.is_finite f = true ->
  (0 * f / 100 + 1e-5)%float = 1e-5%float.
Proof.
  intros Hf.
  assert (Hz : (0 * f)%float = 0%float \/ (0 * f)%float = (-0)%float).
  { assert (Hs : exists s, Prim2SF (0 * f)%float = S754_zero s).
    { rewrite mul_spec. change (Prim2SF 0) with (S754_zero false).
      destruct (binary64_finite_cases f Hf) as [[s ->] | [s [m [e ->]]]];
        eexists; reflexivity. }
    destruct Hs as [[|] Hs]; [right | left];
      apply Prim2SF_inj; rewrite Hs; reflexivity. }
  destruct Hz as [-> | ->]; reflexivity.
Qed.

(** The loads of the whole percentages stay finite over [1e-5]. *)
Lemma binary64_whole_percent_finite (n : Z) :
  whole_percent n ->
  Binary64.is_finite (Binary64.of_Z n / 1e-5 * 100)%float = true.
Proof.
  unfold whole_percent. intros Hn.
  assert (Hall : forallb
                   (fun k => Binary64.is_finite
                               (Binary64.of_Z k / 1e-5 * 100)%float)
                   (map (fun j => Z.of_nat j - 100)%Z (seq 0 201)) = true)
    by (vm_compute; reflexivity).
  rewrite forallb_forall in Hall. apply Hall.
  apply in_map_iff. exists (Z.to_nat (n + 100)). split; [lia|].
  apply in_seq. lia.
Qed.




(** C6, as the code has it.  The mean efficiency goes to the chart as it
    is: the two slices are [eff_avg] and [100 - eff_avg] for every table on
    which the block raises nothing, whether or not the mean lies between 0
    and 100. *)
Theorem efficiency_mean_passed_as_is :
  forall (F : Type) (S : Scalar F) (df : frame F) (eff : list F) (p : pie F),
    compute_efficiency df = Ok (eff, p) ->
    removed p = mean eff /\ losses p = lit 100 - mean eff.
Proof.
  intros F S df eff p. unfold compute_efficiency, bind.
  destruct (getitem wob_col df) as [cw|]; [|discriminate].
  destruct (getitem flow_col df) as [cf|]; [|discriminate].
  destruct (rate_per_100 wob_col flow_col cw cf) as [r|]; [|discriminate].
  destruct (getitem shaker_col df) as [co|]; [|discriminate].
  destruct (as_num shaker_col co) as [o|]; [|discriminate].
  intros [= <- <-]. split; reflexivity.
Qed.

Lemma efficiency_mean_passed_as_is_witness :
  removed one_reading_pie = mean [249.9998750000625%float] /\
  losses one_reading_pie = (100 - mean [249.9998750000625%float])%float.
Proof.
  apply (efficiency_mean_passed_as_is binary64 one_reading).
  reflexivity.
Defined.

(** One reading with load 50, weight on bit 10 and flow rate 200 has mean
    efficiency 249.99...: the chart gets the slices 249.99... and
    -149.99..., neither clamped nor replaced by a warning. *)
Lemma efficiency_mean_not_clamped :
  compute_efficiency one_reading =
    Ok ([249.9998750000625%float], one_reading_pie) /\
  (mean [249.9998750000625%float] >? lit 100) = true /\
  ~ clamped_or_flagged (compute_efficiency one_reading).
Proof.
  split; [reflexivity|]. split; [reflexivity|].
  intros [[_ Hhi] _]. vm_compute in Hhi. discriminate.
Qed.

(** ** The empty table and missing columns *)

Section DeriveFacts.

Context {F : Type} `{Scalar F}.

Lemma as_num_empty (c : string) (v : column F) :
  no_numbers v -> as_num c v = Ok [].
Proof.
  intros [-> | ->]; reflexivity.
Qed.

(** On numeric columns of no rows the summary raises nothing. *)
Lemma summarize_no_rows (df : frame F) (cd cl cu : column F) :
  get (depth_col df) df = Some cd ->
  get shaker_col df = Some cl ->
  get screen_col df = Some cu ->
  no_numbers cd -> no_numbers cl -> no_numbers cu ->
  summarize df =
  Ok {| total_depth := s_nan;
        shaker_avg := s_nan;
        shaker_min := s_nan;
        shaker_max := s_nan;
        screen_avg := s_nan;
        screen_min := s_nan;
        screen_max := s_nan;
        life := screen_life s_nan;
        status := classify_anomaly s_nan s_nan |}.
Proof.
  intros Hd Hl Hu Ld Ll Lu. unfold summarize, getitem.
  rewrite Hd, Hl, Hu. simpl.
  rewrite (as_num_empty _ Ld), (as_num_empty _ Ll), (as_num_empty _ Lu).
  reflexivity.
Qed.

(** The two shapes of a run of [derive_utilization] that raises nothing. *)
Lemma derive_utilization_inv (mesh_capacity : Z) (df df' : frame F) :
  derive_utilization mesh_capacity df = Ok df' ->
  df' = df \/
  exists cw cf r,
    has_col screen_col df = false /\
    get wob_col df = Some cw /\ get flow_col df = Some cf /\
    rate_per_100 wob_col flow_col cw cf = Ok r /\
    df' = setitem screen_col
            (NumCol (utilization mesh_capacity r))
            (setitem solids_col (NumCol r) df).
Proof.
  unfold derive_utilization, getitem.
  destruct (has_col screen_col df) eqn:Hs; simpl;
    [intros [= <-]; left; reflexivity|].
  destruct (has_col wob_col df && has_col flow_col df);
    [|intros [= <-]; left; reflexivity].
  destruct (get wob_col df) as [cw|]; simpl; [|discriminate].
  destruct (get flow_col df) as [cf|]; simpl; [|discriminate].
  destruct (rate_per_100 wob_col flow_col cw cf) as [r|] eqn:Er; simpl;
    [|discriminate].
  rewrite get_setitem_same. simpl.
  intros [= <-]. right. exists cw, cf, r. repeat split; assumption.
Qed.

(** [derive_utilization] leaves every column but its own two as it is. *)
Lemma derive_utilization_get_other (mesh_capacity : Z) (df df' : frame F)
      (c : string) :
  derive_utilization mesh_capacity df = Ok df' ->
  c <> solids_col -> c <> screen_col ->
  get c df' = get c df.
Proof.
  intros Hd Hc1 Hc2.
  destruct (derive_utilization_inv _ _ Hd)
    as [-> | [cw [cf [r [_ [_ [_ [_ ->]]]]]]]]; [reflexivity|].
  rewrite !get_setitem_other by congruence. reflexivity.
Qed.

End DeriveFacts.

(** C7, as the code has it.  On a table of no rows whose depth, shaker-load
    and utilization columns are present and numeric, the summary raises
    nothing, so it does not reach the "Summary stats unavailable" warning:
    it shows the undefined value NaN for the depth, for the mean, minimum
    and maximum of the shaker load and of the utilization, and for the
    screen life (not zero), and no anomaly message, a comparison with NaN
    being false.  In binary64 and in exact arithmetic alike. *)
Theorem summarize_empty_series :
  (forall (df : frame float) (cd cl cu : column float),
      get (depth_col df) df = Some cd ->
      get shaker_col df = Some cl ->
      get screen_col df = Some cu ->
      no_numbers cd -> no_numbers cl -> no_numbers cu ->
      summarize df = Ok (undefined_stats float)) /\
  (forall (df : frame xnum) (cd cl cu : column xnum),
      get (depth_col df) df = Some cd ->
      get shaker_col df = Some cl ->
      get screen_col df = Some cu ->
      no_numbers cd -> no_numbers cl -> no_numbers cu ->
      summarize df = Ok (undefined_stats xnum)).
Proof.
  split; intros df cd cl cu Hd Hl Hu Ld Ll Lu;
    rewrite (summarize_no_rows _ Hd Hl Hu Ld Ll Lu); reflexivity.
Qed.

Lemma summarize_empty_series_witness :
  summarize (setitem screen_col (NumCol []) (no_rows float)) =
    Ok (undefined_stats float) /\
  summarize (setitem screen_col (NumCol []) (no_rows_int xnum)) =
    Ok (undefined_stats xnum).
Proof.
  split.
  - apply (proj1 summarize_empty_series
                 (setitem screen_col (NumCol []) (no_rows float))
                 (NumCol []) (NumCol []) (NumCol []));
      (reflexivity || (left; reflexivity)).
  - apply (proj2 summarize_empty_series
                 (setitem screen_col (NumCol []) (no_rows_int xnum))
                 (IntCol []) (IntCol []) (NumCol []));
      (reflexivity || (left; reflexivity) || (right; reflexivity)).
Defined.

(** A run on the table without rows: the summary is a value, not the
    "unavailable" branch. *)
Lemma empty_series_not_unavailable :
  exists m : derived_metrics float,
    dashboard API_100 None (no_rows float) = Ok m /\
    n_rows (table m) = O /\
    summary m = Ok (undefined_stats float) /\
    forall e : exn, summary m <> Err e.
Proof.
  eexists. split; [vm_compute; reflexivity|]. cbn [table summary].
  split; [reflexivity|]. split; [vm_compute; reflexivity|].
  intros e. vm_compute. discriminate.
Qed.




(** ** The frame of [derive_utilization] *)

Section ShapeFacts.

Context {F : Type} `{Scalar F}.

Lemma get_In (c : string) (v : column F) (df : frame F) :
  get c df = Some v -> exists n, In (n, v) df.
Proof.
  induction df as [|[n w] rest IH]; simpl; [discriminate|].
  destruct (String.eqb c n).
  - intros [= ->]. exists n. left. reflexivity.
  - intros Hg. destruct (IH Hg) as [n' Hin]. exists n'. right. exact Hin.
Qed.

Lemma wf_frame_get (c : string) (v : column F) (df : frame F) :
  wf_frame df -> get c df = Some v -> col_len v = n_rows df.
Proof.
  intros Hwf Hg. destruct (get_In _ _ Hg) as [n Hin].
  unfold wf_frame in Hwf. rewrite Forall_forall in Hwf.
  exact (Hwf (n, v) Hin).
Qed.

Lemma as_num_length (c : string) (v : column F) (xs : list F) :
  as_num c v = Ok xs -> List.length xs = col_len v.
Proof.
  destruct v as [ys|ys|ys|zs]; simpl; try discriminate;
    intros [= <-]; [reflexivity | apply length_map].
Qed.

Lemma n_rows_setitem (c : string) (v : column F) (df : frame F) :
  df <> [] -> col_len v = n_rows df ->
  n_rows (setitem c v df) = n_rows df.
Proof.
  destruct df as [|[n w] rest]; [congruence|].
  intros _ Hv. simpl. destruct (String.eqb c n); simpl; [exact Hv | reflexivity].
Qed.

Lemma Forall_setitem (P : string * column F -> Prop) (c : string)
      (v : column F) (df : frame F) :
  (forall n, P (n, v)) -> Forall P df -> Forall P (setitem c v df).
Proof.
  intros Hv. induction df as [|[n w] rest IH]; simpl; intros Hdf.
  - constructor; [apply Hv | constructor].
  - inversion Hdf as [|? ? Hhd Htl]; subst.
    destruct (String.eqb c n); constructor; auto.
Qed.

Lemma wf_frame_setitem (c : string) (v : column F) (df : frame F) :
  wf_frame df -> df <> [] -> col_len v = n_rows df ->
  wf_frame (setitem c v df).
Proof.
  intros Hwf Hne Hv. unfold wf_frame.
  rewrite (n_rows_setitem _ _ Hne Hv).
  apply Forall_setitem; [intros n; exact Hv | exact Hwf].
Qed.

Lemma setitem_not_nil (c : string) (v : column F) (df : frame F) :
  setitem c v df <> [].
Proof.
  destruct df as [|[n w] rest]; simpl; [discriminate|].
  destruct (String.eqb c n); discriminate.
Qed.

Lemma length_solids_rate (w f : list F) :
  List.length (solids_rate w f) = Nat.min (List.length w) (List.length f).
Proof.
  unfold solids_rate. rewrite length_map. apply length_zip_with.
Qed.

Lemma length_utilization (mesh_capacity : Z) (s : list F) :
  List.length (utilization mesh_capacity s) = List.length s.
Proof.
  unfold utilization. apply length_map.
Qed.

Lemma rate_per_100_length (na nb : string) (ca cb : column F) (r : list F) :
  rate_per_100 na nb ca cb = Ok r ->
  List.length r = Nat.min (col_len ca) (col_len cb).
Proof.
  assert (Hgen : (w <- as_num na ca ;; f <- as_num nb cb ;;
                  Ok (solids_rate w f)) = Ok r ->
                 List.length r = Nat.min (col_len ca) (col_len cb)).
  { destruct (as_num na ca) as [w|] eqn:Ew; simpl; [|discriminate].
    destruct (as_num nb cb) as [f|] eqn:Ef; simpl; [|discriminate].
    intros [= <-].
    rewrite length_solids_rate, (as_num_length _ _ Ew), (as_num_length _ _ Ef).
    reflexivity. }
  destruct ca as [ws|ws|ws|ws]; destruct cb as [fs|fs|fs|fs];
    try exact Hgen.
  simpl. intros [= <-]. rewrite length_map. apply length_zip_with.
Qed.

End ShapeFacts.

(** C10, as the code has it.  When [derive_utilization] computes, every
    column the table had keeps its values and their order, except a
    [Solids Volume Rate (gpm)] column the table may already have had, which
    line 63 assigns anew.  The columns stay in place; the solids rate is
    appended when it was not there, and the utilization is appended last.
    The number of rows does not change. *)
Theorem derive_utilization_frame :
  forall (F : Type) (S : Scalar F) (mesh_capacity : Z) (df df' : frame F),
    has_col screen_col df = false ->
    has_col wob_col df = true ->
    has_col flow_col df = true ->
    derive_utilization mesh_capacity df = Ok df' ->
    (forall (c : string) (v : column F),
        c <> solids_col -> get c df = Some v -> get c df' = Some v) /\
    columns df' =
    ((if has_col solids_col df then columns df
      else columns df ++ [solids_col]) ++ [screen_col])%list /\
    (wf_frame df -> n_rows df' = n_rows df /\ wf_frame df').
Proof.
  intros F S mesh_capacity df df' Hs Hw Hf Hd.
  assert (Hshape : exists cw cf r,
             get wob_col df = Some cw /\ get flow_col df = Some cf /\
             rate_per_100 wob_col flow_col cw cf = Ok r /\
             df' = setitem screen_col
                     (NumCol (utilization mesh_capacity r))
                     (setitem solids_col (NumCol r) df)).
  { destruct (derive_utilization_inv _ _ Hd)
      as [-> | [cw [cf [r [_ Hrest]]]]];
      [|exists cw, cf, r; exact Hrest].
    exfalso. revert Hd. unfold derive_utilization, getitem.
    rewrite Hs, Hw, Hf. simpl.
    destruct (get wob_col df) as [cw|]; simpl; [|discriminate].
    destruct (get flow_col df) as [cf|]; simpl; [|discriminate].
    destruct (rate_per_100 wob_col flow_col cw cf) as [r|]; simpl;
      [|discriminate].
    rewrite get_setitem_same. simpl. intros [= Heq].
    apply (f_equal (has_col screen_col)) in Heq.
    rewrite Hs, has_col_get, get_setitem_same in Heq. discriminate. }
  destruct Hshape as [cw [cf [r [Hgw [Hgf [Hr ->]]]]]].
  split; [|split].
  - intros c v Hc Hg.
    assert (Hc' : c <> screen_col).
    { intros ->. rewrite (has_col_false_get _ _ Hs) in Hg. discriminate. }
    rewrite !get_setitem_other by congruence. exact Hg.
  - rewrite columns_setitem, has_col_setitem_other, Hs by discriminate.
    rewrite columns_setitem. reflexivity.
  - intros Hwf.
    assert (Hne : df <> []) by (intros ->; discriminate).
    assert (Hlen : List.length r = n_rows df).
    { rewrite (rate_per_100_length _ _ _ _ Hr), (wf_frame_get _ Hwf Hgw),
        (wf_frame_get _ Hwf Hgf).
      apply Nat.min_id. }
    assert (Hn1 : n_rows (setitem solids_col (NumCol r) df) = n_rows df)
      by (apply n_rows_setitem; assumption).
    assert (Hwf1 : wf_frame (setitem solids_col (NumCol r) df))
      by (apply wf_frame_setitem; assumption).
    assert (Hlen2 : col_len (NumCol (utilization mesh_capacity r))
                    = n_rows (setitem solids_col (NumCol r) df)).
    { simpl. rewrite length_utilization, Hn1. exact Hlen. }
    split.
    + rewrite n_rows_setitem; [exact Hn1 | apply setitem_not_nil | exact Hlen2].
    + apply wf_frame_setitem; [exact Hwf1 | apply setitem_not_nil | exact Hlen2].
Qed.

Lemma derive_utilization_frame_witness :
  get shaker_col (derived_sample float) = Some (NumCol [50; -20]%float) /\
  columns (derived_sample float) =
    ["Date"; shaker_col; wob_col; flow_col; bit_depth_col;
     solids_col; screen_col] /\
  n_rows (derived_sample float) = 2%nat.
Proof.
  assert (Hwf : wf_frame (sample float)) by (repeat constructor).
  destruct (@derive_utilization_frame float binary64
              (SCREEN_MESH_CAPACITY API_100) (sample float)
              (derived_sample float)
              eq_refl eq_refl eq_refl eq_refl) as [Hcols [Hnames Hrows]].
  split; [|split].
  - apply Hcols; [discriminate | reflexivity].
  - exact Hnames.
  - exact (proj1 (Hrows Hwf)).
Defined.

(** A solids-rate column that came with the upload is overwritten. *)
Lemma derive_utilization_overwrites_solids :
  exists df' : frame float,
    derive_utilization (SCREEN_MESH_CAPACITY API_100) with_solids = Ok df' /\
    get solids_col with_solids = Some (NumCol [999%float]) /\
    get solids_col df' = Some (NumCol [20%float]) /\
    get solids_col df' <> get solids_col with_solids.
Proof.
  eexists. split; [vm_compute; reflexivity|].
  split; [reflexivity|]. split; [reflexivity|].
  intros Heq.
  apply (f_equal (fun o => match o with
                           | Some (NumCol [x]) => PrimFloat.eqb x 20
                           | _ => false
                           end)) in Heq.
  vm_compute in Heq. discriminate.
Qed.

(** ** The calendar filter *)

Section FilterFacts.

Context {F : Type} `{Scalar F}.

Lemma take_mask_length_le {A : Type} (mask : list bool) (xs : list A) :
  (List.length (take_mask mask xs) <= count_true mask)%nat.
Proof.
  unfold count_true. revert xs.
  induction mask as [|b mask IH]; intros [|x xs]; simpl; try lia.
  specialize (IH xs). destruct b; simpl; lia.
Qed.

Lemma take_mask_length_eq {A : Type} (mask : list bool) (xs : list A) :
  List.length xs = List.length mask ->
  List.length (take_mask mask xs) = count_true mask.
Proof.
  unfold count_true. revert xs.
  induction mask as [|b mask IH]; intros [|x xs]; simpl;
    try discriminate; try reflexivity.
  intros [= Hlen]. specialize (IH xs Hlen). destruct b; simpl; lia.
Qed.

Lemma take_mask_all_true {A : Type} (mask : list bool) (xs : list A) :
  Forall (fun b => b = true) mask ->
  (List.length xs <= List.length mask)%nat ->
  take_mask mask xs = xs.
Proof.
  intros Hall. revert xs.
  induction Hall as [|b mask Hb Hall IH]; intros [|x xs]; simpl;
    try reflexivity; try lia.
  intros Hlen. rewrite Hb. f_equal. apply IH. lia.
Qed.

Lemma take_mask_map {A : Type} (p : A -> bool) (xs : list A) :
  take_mask (map p xs) xs = filter p xs.
Proof.
  induction xs as [|x xs IH]; simpl; [reflexivity|].
  rewrite IH. reflexivity.
Qed.

Lemma Forall_map_filter {A : Type} (p : A -> bool) (xs : list A) :
  Forall (fun b => b = true) (map p (filter p xs)).
Proof.
  induction xs as [|x xs IH]; simpl; [constructor|].
  destruct (p x) eqn:Hp; simpl; [constructor; assumption | exact IH].
Qed.

Lemma date_mask_length (sel : option date) (c : column F) :
  List.length (date_mask sel c) = col_len c.
Proof.
  destruct c; simpl; apply length_map.
Qed.

(** Every row that the filter kept carries the selected date. *)
Lemma date_mask_filtered (sel : option date) (c : column F) :
  Forall (fun b => b = true)
         (date_mask sel (col_filter (date_mask sel c) c)).
Proof.
  destruct c as [xs|xs|ds|zs]; simpl.
  - rewrite take_mask_map.
    replace (filter (fun _ : F => false) xs) with (@nil F);
      [constructor|].
    induction xs; simpl; auto.
  - rewrite take_mask_map.
    replace (filter (fun _ : string => false) xs) with (@nil string);
      [constructor|].
    induction xs; simpl; auto.
  - rewrite take_mask_map. apply Forall_map_filter.
  - rewrite take_mask_map.
    replace (filter (fun _ : Z => false) zs) with (@nil Z);
      [constructor|].
    induction zs; simpl; auto.
Qed.

Lemma col_filter_length_le (mask : list bool) (c : column F) :
  (col_len (col_filter mask c) <= count_true mask)%nat.
Proof.
  destruct c; simpl; apply take_mask_length_le.
Qed.

Lemma col_filter_length_eq (mask : list bool) (c : column F) :
  col_len c = List.length mask ->
  col_len (col_filter mask c) = count_true mask.
Proof.
  destruct c; simpl; apply take_mask_length_eq.
Qed.

Lemma col_filter_all_true (mask : list bool) (c : column F) :
  Forall (fun b => b = true) mask ->
  (col_len c <= List.length mask)%nat ->
  col_filter mask c = c.
Proof.
  intros Hall Hlen.
  destruct c; simpl in *; f_equal; apply take_mask_all_true; assumption.
Qed.

(** The mask of the filtered [Date] column keeps what the first mask
    left of any column. *)
Lemma col_filter_again (sel : option date) (c v : column F) :
  (col_len v <= count_true (date_mask sel c))%nat ->
  col_filter (date_mask sel (col_filter (date_mask sel c) c)) v = v.
Proof.
  intros Hlen. apply col_filter_all_true; [apply date_mask_filtered|].
  rewrite date_mask_length, col_filter_length_eq;
    [exact Hlen | symmetry; apply date_mask_length].
Qed.

Lemma get_filter_rows (c : string) (mask : list bool) (df : frame F) :
  get c (filter_rows mask df) = option_map (col_filter mask) (get c df).
Proof.
  induction df as [|[n v] rest IH]; simpl; [reflexivity|].
  destruct (String.eqb c n); [reflexivity | exact IH].
Qed.

Lemma filter_rows_setitem (c : string) (v : column F) (mask : list bool)
      (df : frame F) :
  filter_rows mask (setitem c v df) =
  setitem c (col_filter mask v) (filter_rows mask df).
Proof.
  induction df as [|[n w] rest IH]; simpl; [reflexivity|].
  destruct (String.eqb c n); simpl; [reflexivity|].
  f_equal. exact IH.
Qed.

Lemma filter_rows_again (sel : option date) (c : column F) (df : frame F) :
  filter_rows (date_mask sel (col_filter (date_mask sel c) c))
              (filter_rows (date_mask sel c) df) =
  filter_rows (date_mask sel c) df.
Proof.
  unfold filter_rows. rewrite map_map.
  apply map_ext. intros [n v]. simpl. f_equal.
  apply col_filter_again, col_filter_length_le.
Qed.

Lemma filter_date_twice (sel : option date) (df : frame F) :
  filter_date sel (filter_date sel df) = filter_date sel df.
Proof.
  unfold filter_date at 2.
  destruct (get "Date" df) as [c|] eqn:Hg.
  - unfold filter_date. rewrite get_filter_rows, Hg. simpl.
    apply filter_rows_again.
  - unfold filter_date. rewrite Hg. reflexivity.
Qed.

(** A second run of [derive_utilization] on its own result changes
    nothing. *)
Lemma derive_utilization_twice (mesh_capacity : Z) (df df' : frame F) :
  derive_utilization mesh_capacity df = Ok df' ->
  derive_utilization mesh_capacity df' = Ok df'.
Proof.
  intros Hd.
  destruct (derive_utilization_inv _ _ Hd)
    as [-> | [cw [cf [r [_ [_ [_ [_ ->]]]]]]]]; [exact Hd|].
  unfold derive_utilization.
  rewrite has_col_get, get_setitem_same. reflexivity.
Qed.

(** The derived columns are no longer than the filtered table, so the
    filter keeps them too. *)
Lemma filter_date_derived (mesh_capacity : Z) (sel : option date)
      (df df' : frame F) :
  derive_utilization mesh_capacity (filter_date sel df) = Ok df' ->
  filter_date sel df' = df'.
Proof.
  intros Hd. unfold filter_date.
  rewrite (derive_utilization_get_other _ _ Hd) by discriminate.
  fold (filter_date sel (filter_date sel df)) in *.
  unfold filter_date in Hd |- *.
  destruct (get "Date" df) as [c|] eqn:Hg.
  - rewrite get_filter_rows, Hg. simpl.
    destruct (derive_utilization_inv _ _ Hd)
      as [-> | [cw [cf [r [_ [Hgw [_ [Hr ->]]]]]]]];
      [apply filter_rows_again|].
    assert (Hlen : (List.length r <= count_true (date_mask sel c))%nat).
    { rewrite (rate_per_100_length _ _ _ _ Hr).
      rewrite get_filter_rows in Hgw.
      destruct (get wob_col df) as [cw0|]; [|discriminate].
      injection Hgw as <-.
      pose proof (col_filter_length_le (date_mask sel c) cw0). lia. }
    rewrite !filter_rows_setitem, filter_rows_again.
    rewrite !col_filter_again; [reflexivity | exact Hlen |].
    simpl. rewrite length_utilization. exact Hlen.
  - rewrite Hg. reflexivity.
Qed.

End FilterFacts.

(** C9.  Filtering a table to the date it is already filtered to changes
    nothing, so the run on the filtered table gives the metrics of the run
    on the table; and the table that a run leaves, with its derived
    columns, filtered to that date and computed again, gives the same
    metrics once more.  A run is a function of the mesh, the date and the
    table: it keeps nothing between two calls. *)
Theorem filter_date_idempotent :
  forall (F : Type) (S : Scalar F) (mesh : mesh_type)
         (sel : option date) (df : frame F),
    filter_date sel (filter_date sel df) = filter_date sel df /\
    dashboard mesh sel (filter_date sel df) = dashboard mesh sel df /\
    forall m : derived_metrics F,
      dashboard mesh sel df = Ok m ->
      filter_date sel (table m) = table m /\
      dashboard mesh sel (table m) = Ok m.
Proof.
  intros F S mesh sel df.
  split; [apply filter_date_twice|].
  split; [unfold dashboard; rewrite filter_date_twice; reflexivity|].
  intros m. unfold dashboard, metrics, bind.
  destruct (derive_utilization (SCREEN_MESH_CAPACITY mesh)
                               (filter_date sel df)) as [df'|] eqn:Hd;
    [|discriminate].
  intros [= <-]. cbn [table].
  rewrite (filter_date_derived _ _ _ Hd), (derive_utilization_twice _ _ Hd).
  split; reflexivity.
Qed.

Lemma filter_date_idempotent_witness :
  exists m : derived_metrics float,
    dashboard API_100 (Some (2024, 1, 1)) (sample float) = Ok m /\
    filter_date (Some (2024, 1, 1)) (table m) = table m /\
    dashboard API_100 (Some (2024, 1, 1)) (table m) = Ok m.
Proof.
  destruct (dashboard API_100 (Some (2024, 1, 1)) (sample float))
    as [m|e] eqn:Hm; [|vm_compute in Hm; discriminate].
  exists m. split; [reflexivity|].
  exact (proj2 (proj2 (filter_date_idempotent binary64 API_100
                         (Some (2024, 1, 1)) (sample float))) m Hm).
Defined.

(** * Further properties of the script *)

(** ** The date select box *)

Lemma date_eqb_eq (d e : date) : date_eqb d e = true <-> d = e.
Proof.
  destruct d as [[y1 m1] d1], e as [[y2 m2] d2]. unfold date_eqb.
  rewrite !andb_true_iff, !Z.eqb_eq. split.
  - intros [[-> ->] ->]. reflexivity.
  - intros [= -> -> ->]. auto.
Qed.

Lemma date_eqb_refl (d : date) : date_eqb d d = true.
Proof.
  apply date_eqb_eq. reflexivity.
Qed.

(** The calendar order on dates. *)
Lemma date_leb_iff (y1 m1 d1 y2 m2 d2 : Z) :
  date_leb (y1, m1, d1) (y2, m2, d2) = true <->
  (y1 < y2 \/ (y1 = y2 /\ (m1 < m2 \/ (m1 = m2 /\ d1 <= d2))))%Z.
Proof.
  unfold date_leb.
  rewrite !orb_true_iff, !andb_true_iff, !orb_true_iff, !andb_true_iff,
    !Z.ltb_lt, !Z.eqb_eq, Z.leb_le.
  reflexivity.
Qed.

Lemma date_leb_total (d e : date) :
  date_leb d e = false -> date_leb e d = true.
Proof.
  destruct d as [[y1 m1] d1], e as [[y2 m2] d2]. intros Hf.
  apply date_leb_iff.
  assert (Hn : ~ (y1 < y2 \/ (y1 = y2 /\ (m1 < m2 \/ (m1 = m2 /\ d1 <= d2))))%Z).
  { intros Hle. apply date_leb_iff in Hle. congruence. }
  lia.
Qed.

Lemma date_leb_trans (d e f : date) :
  date_leb d e = true -> date_leb e f = true -> date_leb d f = true.
Proof.
  destruct d as [[y1 m1] d1], e as [[y2 m2] d2], f as [[y3 m3] d3].
  rewrite !date_leb_iff. lia.
Qed.

Lemma In_insert_date (x d : date) (ds : list date) :
  In x (insert_date d ds) <-> x = d \/ In x ds.
Proof.
  induction ds as [|e rest IH]; simpl.
  - intuition.
  - destruct (date_leb d e); simpl; [intuition|].
    rewrite IH. intuition.
Qed.

Lemma In_sorted_dates (x : date) (ds : list date) :
  In x (sorted_dates ds) <-> In x ds.
Proof.
  induction ds as [|d rest IH]; simpl; [reflexivity|].
  rewrite In_insert_date, IH. intuition.
Qed.

Lemma In_unique_dates (x : date) (ds : list date) :
  In x (unique_dates ds) <-> In x ds.
Proof.
  induction ds as [|d rest IH]; simpl; [reflexivity|].
  rewrite filter_In, IH, negb_true_iff. split.
  - intros [Hx | [Hx _]]; auto.
  - intros [Hx | Hx]; [auto|].
    destruct (date_eqb x d) eqn:E; [|auto].
    apply date_eqb_eq in E. auto.
Qed.

Lemma NoDup_unique_dates (ds : list date) : NoDup (unique_dates ds).
Proof.
  induction ds as [|d rest IH]; simpl; constructor.
  - rewrite filter_In, negb_true_iff, date_eqb_refl. intros [_ Hd].
    discriminate.
  - apply NoDup_filter. exact IH.
Qed.

Lemma NoDup_insert_date (d : date) (ds : list date) :
  ~ In d ds -> NoDup ds -> NoDup (insert_date d ds).
Proof.
  induction ds as [|e rest IH]; simpl; intros Hd Hnd.
  - constructor; [auto | constructor].
  - destruct (date_leb d e).
    + constructor; [simpl; exact Hd | exact Hnd].
    + inversion Hnd as [|? ? He Hrest]; subst. constructor.
      * rewrite In_insert_date. intros [-> | Hin]; [apply Hd; auto | auto].
      * apply IH; [intros Hin; apply Hd; auto | exact Hrest].
Qed.

Lemma NoDup_sorted_dates (ds : list date) :
  NoDup ds -> NoDup (sorted_dates ds).
Proof.
  induction ds as [|d rest IH]; simpl; intros Hnd; [constructor|].
  inversion Hnd as [|? ? Hd Hrest]; subst.
  apply NoDup_insert_date; [rewrite In_sorted_dates; exact Hd | auto].
Qed.

Lemma StronglySorted_insert_date (d : date) (ds : list date) :
  StronglySorted (fun a b => date_leb a b = true) ds ->
  StronglySorted (fun a b => date_leb a b = true) (insert_date d ds).
Proof.
  induction ds as [|e rest IH]; simpl; intros Hs.
  - constructor; [constructor | constructor].
  - inversion Hs as [|? ? Hrest Hall]; subst.
    destruct (date_leb d e) eqn:E.
    + constructor; [exact Hs|]. constructor; [exact E|].
      rewrite Forall_forall in *. intros x Hx.
      apply (date_leb_trans _ _ _ E). apply Hall. exact Hx.
    + constructor; [apply IH; exact Hrest|].
      rewrite Forall_forall in *. intros x Hx.
      apply In_insert_date in Hx. destruct Hx as [-> | Hx].
      * apply date_leb_total. exact E.
      * apply Hall. exact Hx.
Qed.

Lemma StronglySorted_sorted_dates (ds : list date) :
  StronglySorted (fun a b => date_leb a b = true) (sorted_dates ds).
Proof.
  induction ds as [|d rest IH]; simpl; [constructor|].
  apply StronglySorted_insert_date. exact IH.
Qed.

(** The options are the dates of the column. *)
Lemma date_options_In {F : Type} `{Scalar F} (df : frame F)
      (ds : list date) (d : date) :
  get "Date" df = Some (DateCol ds) ->
  (In d (date_options df) <-> In d ds).
Proof.
  intros Hg. unfold date_options. rewrite Hg.
  rewrite In_sorted_dates, In_unique_dates. reflexivity.
Qed.

(** X1.  The select box offers every date of the table once, in calendar
    order: the options are strictly the dates that occur in the [Date]
    column, without repetition, each one no later than those after it. *)
Theorem date_options_sorted_unique :
  forall (F : Type) (S : Scalar F) (df : frame F) (ds : list date),
    get "Date" df = Some (DateCol ds) ->
    StronglySorted (fun a b => date_leb a b = true) (date_options df) /\
    NoDup (date_options df) /\
    forall d : date, In d (date_options df) <-> In d ds.
Proof.
  intros F S df ds Hg. unfold date_options. rewrite Hg.
  split; [apply StronglySorted_sorted_dates|].
  split; [apply NoDup_sorted_dates, NoDup_unique_dates|].
  intros d. rewrite In_sorted_dates, In_unique_dates. reflexivity.
Qed.

Lemma date_options_sorted_unique_witness :
  date_options (two_days float) = [(2024, 1, 1); (2024, 1, 2)] /\
  NoDup (date_options (two_days float)) /\
  (In (2024, 1, 2) (date_options (two_days float)) <->
   In (2024, 1, 2) [(2024, 1, 2); (2024, 1, 1); (2024, 1, 2)]).
Proof.
  split; [reflexivity|].
  destruct (@date_options_sorted_unique float binary64 (two_days float)
              [(2024, 1, 2); (2024, 1, 1); (2024, 1, 2)] eq_refl)
    as [_ [Hnd Hin]].
  split; [exact Hnd | apply Hin].
Defined.

(** ** The table of one date *)

Section RowFacts.

Context {F : Type} `{Scalar F}.

Lemma columns_filter_rows (mask : list bool) (df : frame F) :
  columns (filter_rows mask df) = columns df.
Proof.
  unfold columns, filter_rows. rewrite map_map. reflexivity.
Qed.

Lemma n_rows_filter_rows (mask : list bool) (df : frame F) :
  List.length mask = n_rows df ->
  n_rows (filter_rows mask df) = count_true mask.
Proof.
  destruct df as [|[n c] rest]; simpl.
  - destruct mask; [reflexivity | discriminate].
  - intros Hlen. apply col_filter_length_eq. symmetry. exact Hlen.
Qed.

Lemma wf_frame_filter_rows (mask : list bool) (df : frame F) :
  wf_frame df -> List.length mask = n_rows df ->
  wf_frame (filter_rows mask df).
Proof.
  intros Hwf Hlen. unfold wf_frame.
  rewrite (n_rows_filter_rows _ _ Hlen).
  unfold wf_frame in Hwf. unfold filter_rows.
  rewrite Forall_map. rewrite Forall_forall in *. intros [n c] Hin. simpl.
  pose proof (Hwf _ Hin) as Hc. simpl in Hc.
  apply col_filter_length_eq. rewrite Hc. symmetry. exact Hlen.
Qed.

Lemma count_true_map {A : Type} (p : A -> bool) (xs : list A) :
  count_true (map p xs) = List.length (filter p xs).
Proof.
  unfold count_true.
  induction xs as [|x xs IH]; simpl; [reflexivity|].
  destruct (p x); simpl; rewrite IH; reflexivity.
Qed.

Lemma filter_date_eqb_repeat (d : date) (ds : list date) :
  filter (fun x => date_eqb x d) ds =
  repeat d (List.length (filter (fun x => date_eqb x d) ds)).
Proof.
  induction ds as [|e rest IH]; simpl; [reflexivity|].
  destruct (date_eqb e d) eqn:E; [|exact IH].
  apply date_eqb_eq in E. subst e. simpl. f_equal. exact IH.
Qed.

Lemma filter_date_eqb_pos (d : date) (ds : list date) :
  In d ds -> (0 < List.length (filter (fun x => date_eqb x d) ds))%nat.
Proof.
  induction ds as [|e rest IH]; simpl; [contradiction|].
  intros [-> | Hin].
  - rewrite date_eqb_refl. simpl. lia.
  - destruct (date_eqb e d); simpl; [lia | apply IH; exact Hin].
Qed.

Lemma filter_date_Some (d : date) (df : frame F) (ds : list date) :
  get "Date" df = Some (DateCol ds) ->
  filter_date (Some d) df =
  filter_rows (map (fun x => date_eqb x d) ds) df.
Proof.
  intros Hg. unfold filter_date. rewrite Hg. reflexivity.
Qed.

End RowFacts.



(** X3.  The select box has no option exactly when the table has no row,
    and a run without a selected date works on a table of no rows. *)
Theorem calendar_filter_no_option :
  forall (F : Type) (S : Scalar F) (df : frame F) (ds : list date)
         (choice : nat),
    wf_frame df ->
    get "Date" df = Some (DateCol ds) ->
    (date_options df = [] <-> n_rows df = O) /\
    (selectbox (date_options df) choice = None ->
     n_rows (calendar_filter choice df) = O /\
     columns (calendar_filter choice df) = columns df).
Proof.
  intros F S df ds choice Hwf Hg.
  pose proof (wf_frame_get _ Hwf Hg) as Hrows. simpl in Hrows.
  split.
  - rewrite <- Hrows. split.
    + intros Hnil. destruct ds as [|d rest]; [reflexivity|].
      exfalso. pose proof (date_options_In df d Hg) as Hin.
      rewrite Hnil in Hin. apply Hin. left. reflexivity.
    + intros Hlen. destruct ds; [|discriminate].
      unfold date_options. rewrite Hg. reflexivity.
  - intros Hsel. unfold calendar_filter, filter_date. rewrite Hsel, Hg.
    split; [|apply columns_filter_rows].
    rewrite n_rows_filter_rows by (simpl; rewrite length_map; exact Hrows).
    simpl. rewrite count_true_map.
    assert (Hz : forall l : list date,
               List.length (filter (fun _ => false) l) = O)
      by (induction l; simpl; auto).
    apply Hz.
Qed.

Lemma calendar_filter_no_option_witness :
  (date_options (no_rows float) = [] <-> n_rows (no_rows float) = O) /\
  n_rows (calendar_filter 0 (no_rows float)) = O /\
  columns (calendar_filter 0 (no_rows float)) = columns (no_rows float).
Proof.
  assert (Hwf : wf_frame (no_rows float)) by (repeat constructor).
  destruct (@calendar_filter_no_option float binary64 (no_rows float) []
              0%nat Hwf eq_refl) as [Hiff Hnone].
  split; [exact Hiff | exact (Hnone eq_refl)].
Defined.

(** ** Drop detection *)

Section DropFacts.

Context {F : Type} `{Scalar F}.

Lemma detect_drops_numeric (df : frame F) (l : list F) :
  get shaker_col df = Some (NumCol l) ->
  detect_drops df = Ok (filter_rows (drop_mask l) df).
Proof.
  intros Hg. unfold detect_drops, getitem. rewrite Hg. reflexivity.
Qed.

Lemma detect_drops_inv (df drops : frame F) :
  detect_drops df = Ok drops ->
  exists cl l,
    get shaker_col df = Some cl /\ as_num shaker_col cl = Ok l /\
    drops = filter_rows (drop_mask l) df.
Proof.
  unfold detect_drops, getitem, bind.
  destruct (get shaker_col df) as [cl|]; [|discriminate].
  destruct (as_num shaker_col cl) as [l|] eqn:El; [|discriminate].
  intros [= <-]. exists cl, l. auto.
Qed.

Lemma map_take_mask {A B : Type} (g : A -> B) (mask : list bool)
      (xs : list A) :
  map g (take_mask mask xs) = take_mask mask (map g xs).
Proof.
  revert xs. induction mask as [|b mask IH]; intros [|x xs]; simpl;
    try reflexivity.
  destruct b; simpl; rewrite IH; reflexivity.
Qed.

(** What [as_num] reads in a filtered column. *)
Lemma as_num_col_filter (c : string) (mask : list bool) (v : column F)
      (xs : list F) :
  as_num c v = Ok xs ->
  as_num c (col_filter mask v) = Ok (take_mask mask xs).
Proof.
  destruct v as [ys|ys|ys|zs]; simpl; try discriminate;
    intros [= <-]; [reflexivity|].
  rewrite map_take_mask. reflexivity.
Qed.

End DropFacts.



(** X5.  A second pass of the drop detection over a drop table keeps every
    row of it, and without the shaker-load column the detection raises
    [KeyError] on that column and nothing else. *)
Theorem detect_drops_idempotent :
  forall (F : Type) (S : Scalar F) (df : frame F),
    (has_col shaker_col df = false ->
     detect_drops df = Err (KeyError shaker_col)) /\
    (forall drops : frame F,
        detect_drops df = Ok drops -> detect_drops drops = Ok drops).
Proof.
  intros F S df. split.
  - intros Hh. unfold detect_drops, getitem.
    rewrite (has_col_false_get _ _ Hh). reflexivity.
  - intros drops Hd.
    destruct (detect_drops_inv _ Hd) as [cl [l [Hg [Hn ->]]]].
    unfold detect_drops, getitem.
    rewrite get_filter_rows, Hg. simpl.
    rewrite (as_num_col_filter _ (drop_mask l) _ Hn). simpl.
    f_equal. unfold filter_rows. rewrite map_map.
    apply map_ext. intros [n v]. simpl. f_equal.
    apply col_filter_all_true.
    + unfold drop_mask. rewrite take_mask_map. apply Forall_map_filter.
    + unfold drop_mask. rewrite length_map.
      rewrite take_mask_length_eq by (rewrite length_map; reflexivity).
      apply col_filter_length_le.
Qed.

Lemma detect_drops_idempotent_witness :
  detect_drops with_utilization = Err (KeyError shaker_col) /\
  exists drops : frame float,
    detect_drops (two_days float) = Ok drops /\
    detect_drops drops = Ok drops.
Proof.
  split.
  - apply (proj1 (@detect_drops_idempotent float binary64 with_utilization)).
    reflexivity.
  - destruct (detect_drops (two_days float)) as [drops|e] eqn:Hd;
      [|vm_compute in Hd; discriminate].
    exists drops. split; [reflexivity|].
    exact (proj2 (@detect_drops_idempotent float binary64 (two_days float))
                 drops Hd).
Defined.

(** *** Missing readings in binary64 *)

Lemma SFcompare_refl (x : spec_float) :
  x <> S754_nan -> SFcompare x x = Some Eq.
Proof.
  destruct x as [s|s| |s m e]; simpl; intros Hx.
  - reflexivity.
  - destruct s; reflexivity.
  - congruence.
  - destruct s; rewrite Z.compare_refl, Pos.compare_cont_refl; reflexivity.
Qed.

(** A number that compares below another is not NaN. *)
Lemma binary64_ltb_not_nan (x y : float) :
  PrimFloat.ltb x y = true -> PrimFloat.is_nan x = false.
Proof.
  rewrite ltb_spec. unfold PrimFloat.is_nan. rewrite eqb_spec.
  unfold SFltb, SFeqb. intros Hlt.
  rewrite SFcompare_refl; [reflexivity|].
  intros Hnan. rewrite Hnan in Hlt. discriminate.
Qed.

(** X6.  In binary64 a missing reading (NaN) is never flagged as a drop,
    and neither is a reading of exactly -10: every load of the drop table
    is a number other than -10. *)
Theorem detect_drops_skips_missing :
  forall (df drops : frame float) (l ls : list float),
    get shaker_col df = Some (NumCol l) ->
    detect_drops df = Ok drops ->
    get shaker_col drops = Some (NumCol ls) ->
    Forall (fun x => PrimFloat.is_nan x = false /\ x <> (-10)%float) ls.
Proof.
  intros df drops l ls Hg Hd Hls.
  rewrite (detect_drops_numeric _ Hg) in Hd. injection Hd as <-.
  rewrite get_filter_rows, Hg in Hls. simpl in Hls.
  injection Hls as <-. unfold drop_mask. rewrite take_mask_map.
  rewrite Forall_forall. intros x Hx.
  apply filter_In in Hx. destruct Hx as [_ Hlt].
  split; [exact (@binary64_ltb_not_nan x (Binary64.of_Z (-10)) Hlt)|].
  intros ->. vm_compute in Hlt. discriminate.
Qed.

Lemma detect_drops_skips_missing_witness :
  Forall (fun x => PrimFloat.is_nan x = false /\ x <> (-10)%float)
         [(-15)%float].
Proof.
  apply (@detect_drops_skips_missing
           [(shaker_col, NumCol [nan; -10; -15; 3]%float)]
           [(shaker_col, NumCol [(-15)%float])]
           [nan; -10; -15; 3]%float [(-15)%float]);
    reflexivity.
Defined.

(** ** The rows of the line chart *)

Section TailFacts.

Context {F : Type} `{Scalar F}.

Lemma length_tail {A : Type} (n : nat) (xs : list A) :
  List.length (tail n xs) = Nat.min n (List.length xs).
Proof.
  unfold tail. rewrite length_skipn. lia.
Qed.

Lemma tail_all {A : Type} (n : nat) (xs : list A) :
  (List.length xs <= n)%nat -> tail n xs = xs.
Proof.
  intros Hle. unfold tail.
  replace (List.length xs - n)%nat with O by lia. reflexivity.
Qed.

Lemma tail_suffix {A : Type} (n : nat) (xs : list A) :
  xs = (firstn (List.length xs - n) xs ++ tail n xs)%list.
Proof.
  unfold tail. symmetry. apply firstn_skipn.
Qed.

Lemma col_len_tail (n : nat) (c : column F) :
  col_len (col_tail n c) = Nat.min n (col_len c).
Proof.
  destruct c; simpl; apply length_tail.
Qed.

Lemma col_tail_all (n : nat) (c : column F) :
  (col_len c <= n)%nat -> col_tail n c = c.
Proof.
  destruct c; simpl; intros Hle; f_equal; apply tail_all; exact Hle.
Qed.

Lemma get_tail_rows (c : string) (n : nat) (df : frame F) :
  get c (tail_rows n df) = option_map (col_tail n) (get c df).
Proof.
  induction df as [|[m v] rest IH]; simpl; [reflexivity|].
  destruct (String.eqb c m); [reflexivity | exact IH].
Qed.

Lemma n_rows_tail_rows (n : nat) (df : frame F) :
  n_rows (tail_rows n df) = Nat.min n (n_rows df).
Proof.
  destruct df as [|[m c] rest]; simpl; [lia | apply col_len_tail].
Qed.

End TailFacts.



(** ** The summary block *)

Section SummaryMore.

Context {F : Type} `{Scalar F}.

Lemma summarize_on_numbers (df : frame F) (d l u : list F) :
  get (depth_col df) df = Some (NumCol d) ->
  get shaker_col df = Some (NumCol l) ->
  get screen_col df = Some (NumCol u) ->
  summarize df =
  Ok {| total_depth := col_max d;
        shaker_avg := mean l;
        shaker_min := col_min l;
        shaker_max := col_max l;
        screen_avg := mean u;
        screen_min := col_min u;
        screen_max := col_max u;
        life := screen_life (mean u);
        status := classify_anomaly (mean l) (col_max l) |}.
Proof.
  intros Hd Hl Hu. unfold summarize, getitem.
  rewrite Hd, Hl, Hu. reflexivity.
Qed.

(** The columns behind a summary that raised nothing. *)
Lemma summarize_ok_columns (df : frame F) (s : stats F) :
  summarize df = Ok s ->
  exists cd cl cu d l u,
    get (depth_col df) df = Some cd /\ as_num (depth_col df) cd = Ok d /\
    get shaker_col df = Some cl /\ as_num shaker_col cl = Ok l /\
    get screen_col df = Some cu /\ as_num screen_col cu = Ok u /\
    total_depth s = col_max d /\
    shaker_avg s = mean l /\ shaker_min s = col_min l /\
    shaker_max s = col_max l /\
    screen_avg s = mean u /\ screen_min s = col_min u /\
    screen_max s = col_max u.
Proof.
  unfold summarize, getitem, bind.
  destruct (get (depth_col df) df) as [cd|]; [|discriminate].
  destruct (get shaker_col df) as [cl|]; [|discriminate].
  destruct (as_num shaker_col cl) as [l|] eqn:El; [|discriminate].
  destruct (get screen_col df) as [cu|]; [|discriminate].
  destruct (as_num screen_col cu) as [u|] eqn:Eu; [|discriminate].
  destruct (as_num (depth_col df) cd) as [d|] eqn:Ed; [|discriminate].
  intros [= <-]. exists cd, cl, cu, d, l, u. simpl.
  repeat split; (reflexivity || assumption).
Qed.

Lemma depth_col_get (df : frame F) :
  get (depth_col df) df = None -> depth_col df = hole_depth_col.
Proof.
  unfold depth_col. destruct (has_col bit_depth_col df) eqn:Hb;
    [|reflexivity].
  rewrite has_col_get in Hb. intros Hg. rewrite Hg in Hb. discriminate.
Qed.

(** The picked cell of a fold that keeps one of its arguments. *)
Lemma fold_left_pick (better : F -> F -> bool) (rest : list F) (x : F) :
  In (fold_left (fun acc y => if better y acc then y else acc) rest x)
     (x :: rest).
Proof.
  revert x. induction rest as [|y rest IH]; intros x; simpl.
  - left. reflexivity.
  - destruct (IH (if better y x then y else x)) as [Hhd | Htl].
    + destruct (better y x); rewrite <- Hhd; auto.
    + right. right. exact Htl.
Qed.

Lemma col_min_In (xs : list F) :
  valid xs <> [] -> In (col_min xs) (valid xs).
Proof.
  unfold col_min. destruct (valid xs) as [|x rest]; [congruence|].
  intros _. apply (fold_left_pick (fun y acc => y <? acc)).
Qed.

Lemma col_max_In (xs : list F) :
  valid xs <> [] -> In (col_max xs) (valid xs).
Proof.
  unfold col_max. destruct (valid xs) as [|x rest]; [congruence|].
  intros _. apply (fold_left_pick (fun y acc => y >? acc)).
Qed.

Lemma valid_In (x : F) (xs : list F) :
  In x (valid xs) <-> In x xs /\ s_is_nan x = false.
Proof.
  unfold valid. rewrite filter_In, negb_true_iff. reflexivity.
Qed.

Lemma valid_nil (xs : list F) :
  Forall (fun x => s_is_nan x = true) xs -> valid xs = [].
Proof.
  unfold valid. induction 1 as [|x xs Hx _ IH]; simpl; [reflexivity|].
  rewrite Hx. exact IH.
Qed.

Lemma valid_not_nil (xs : list F) :
  Exists (fun x => s_is_nan x = false) xs -> valid xs <> [].
Proof.
  unfold valid. induction 1 as [x xs Hx | x xs _ IH]; simpl.
  - rewrite Hx. discriminate.
  - destruct (s_is_nan x); simpl; [exact IH | discriminate].
Qed.

End SummaryMore.

(** X8.  The exceptions of the summary block: a missing depth column is
    always reported as ['Hole Depth (feet)'], never as the preferred
    ['Bit Depth (feet)']; the other exceptions are a missing or non-numeric
    shaker-load or utilization column, or a non-numeric depth column; the
    block raises no division error. *)
Theorem summarize_exceptions :
  forall (F : Type) (S : Scalar F) (df : frame F) (e : exn),
    summarize df = Err e ->
    e = KeyError hole_depth_col \/
    e = KeyError shaker_col \/ e = TypeError shaker_col \/
    e = KeyError screen_col \/ e = TypeError screen_col \/
    e = TypeError (depth_col df).
Proof.
  intros F S df e. unfold summarize, bind.
  destruct (getitem (depth_col df) df) as [cd|e1] eqn:E1.
  2:{ intros [= <-]. left. rewrite (getitem_err _ _ E1). f_equal.
      apply depth_col_get. unfold getitem in E1.
      destruct (get (depth_col df) df); [discriminate | reflexivity]. }
  destruct (getitem shaker_col df) as [cl|e2] eqn:E2;
    [|intros [= <-]; rewrite (getitem_err _ _ E2); auto].
  destruct (as_num shaker_col cl) as [l|e3] eqn:E3;
    [|intros [= <-]; rewrite (as_num_err _ _ E3); auto].
  destruct (getitem screen_col df) as [cu|e4] eqn:E4;
    [|intros [= <-]; rewrite (getitem_err _ _ E4); auto 6].
  destruct (as_num screen_col cu) as [u|e5] eqn:E5;
    [|intros [= <-]; rewrite (as_num_err _ _ E5); auto 6].
  destruct (as_num (depth_col df) cd) as [d|e6] eqn:E6;
    [discriminate|].
  intros [= <-]. rewrite (as_num_err _ _ E6). auto 7.
Qed.

Lemma summarize_exceptions_witness :
  KeyError screen_col = KeyError hole_depth_col \/
  KeyError screen_col = KeyError shaker_col \/
  KeyError screen_col = TypeError shaker_col \/
  KeyError screen_col = KeyError screen_col \/
  KeyError screen_col = TypeError screen_col \/
  KeyError screen_col = TypeError (depth_col (sample float)).
Proof.
  apply (@summarize_exceptions float binary64 (sample float)).
  reflexivity.
Defined.





(** ** A whole run *)

Section RunFacts.

Context {F : Type} `{Scalar F}.

Lemma get_filter_date (c : string) (sel : option date) (df : frame F) :
  exists mask : list bool,
    get c (filter_date sel df) = option_map (col_filter mask) (get c df).
Proof.
  unfold filter_date. destruct (get "Date" df) as [cD|].
  - exists (date_mask sel cD). apply get_filter_rows.
  - exists (repeat true (match get c df with
                         | Some v => col_len v
                         | None => O
                         end)).
    destruct (get c df) as [v|]; simpl; [|reflexivity].
    f_equal. symmetry. apply col_filter_all_true.
    + apply Forall_forall. intros b Hb. apply repeat_spec in Hb. exact Hb.
    + rewrite repeat_length. lia.
Qed.

Lemma get_filter_date_num (c : string) (sel : option date) (df : frame F)
      (xs : list F) :
  get c df = Some (NumCol xs) ->
  exists xs', get c (filter_date sel df) = Some (NumCol xs').
Proof.
  intros Hg. destruct (get_filter_date c sel df) as [mask Hm].
  rewrite Hg in Hm. simpl in Hm. eauto.
Qed.

Lemma has_col_filter_date (c : string) (sel : option date) (df : frame F) :
  has_col c (filter_date sel df) = has_col c df.
Proof.
  rewrite !has_col_get.
  destruct (get_filter_date c sel df) as [mask ->].
  destruct (get c df); reflexivity.
Qed.

Lemma depth_col_filter_date (sel : option date) (df : frame F) :
  depth_col (filter_date sel df) = depth_col df.
Proof.
  unfold depth_col. rewrite has_col_filter_date. reflexivity.
Qed.

Lemma depth_col_derived (mesh_capacity : Z) (df df' : frame F) :
  derive_utilization mesh_capacity df = Ok df' ->
  depth_col df' = depth_col df.
Proof.
  intros Hd. unfold depth_col. rewrite !has_col_get.
  rewrite (derive_utilization_get_other _ _ Hd) by discriminate.
  reflexivity.
Qed.

(** The efficiency block reads three columns and nothing else. *)
Lemma compute_efficiency_ext (df df' : frame F) :
  get wob_col df' = get wob_col df ->
  get flow_col df' = get flow_col df ->
  get shaker_col df' = get shaker_col df ->
  compute_efficiency df' = compute_efficiency df.
Proof.
  intros Hw Hf Hl. unfold compute_efficiency, getitem.
  rewrite Hw, Hf, Hl. reflexivity.
Qed.

Lemma compute_efficiency_derived (mesh_capacity : Z) (df df' : frame F) :
  derive_utilization mesh_capacity df = Ok df' ->
  compute_efficiency df' = compute_efficiency df.
Proof.
  intros Hd.
  apply compute_efficiency_ext;
    apply (derive_utilization_get_other _ _ Hd); discriminate.
Qed.

(** After the derivation the utilization is numeric when it was numeric
    or absent with numeric inputs. *)
Lemma derive_utilization_screen_numeric (mesh_capacity : Z) (df : frame F)
      (ws fs : list F) :
  get wob_col df = Some (NumCol ws) ->
  get flow_col df = Some (NumCol fs) ->
  (get screen_col df = None \/
   exists us, get screen_col df = Some (NumCol us)) ->
  exists df' us',
    derive_utilization mesh_capacity df = Ok df' /\
    get screen_col df' = Some (NumCol us').
Proof.
  intros Hw Hf [Hnone | [us Hus]].
  - assert (Hs : has_col screen_col df = false)
      by (rewrite has_col_get, Hnone; reflexivity).
    rewrite (derive_utilization_computes _ _ Hs Hw Hf).
    do 2 eexists. split; [reflexivity | apply get_setitem_same].
  - exists df, us. split; [|exact Hus].
    unfold derive_utilization. rewrite (get_has_col _ _ Hus). reflexivity.
Qed.

End RunFacts.



(** X12.  Without a utilization column and without the weight on bit or
    the flow rate to derive it from, the run goes on with the table as it
    is and both blocks end in their warning: the summary for lack of a
    column and the efficiency for lack of its input. *)
Theorem metrics_without_inputs :
  forall (F : Type) (S : Scalar F) (mesh : mesh_type) (df : frame F),
    has_col screen_col df = false ->
    has_col wob_col df && has_col flow_col df = false ->
    exists m : derived_metrics F,
      metrics mesh df = Ok m /\ table m = df /\
      is_ok (summary m) = false /\
      (exists c, solids_removal m = Err (KeyError c) /\
                 (c = wob_col \/ c = flow_col)).
Proof.
  intros F S mesh df Hs Hwf.
  unfold metrics, derive_utilization. rewrite Hs, Hwf. simpl.
  eexists. split; [reflexivity|]. cbn [table summary solids_removal].
  split; [reflexivity|]. split.
  - destruct (summarize df) as [s|e] eqn:Hsum; [|reflexivity].
    destruct (summarize_ok_columns _ Hsum)
      as [cd [cl [cu [d [l [u [_ [_ [_ [_ [Hu _]]]]]]]]]]].
    rewrite (has_col_false_get _ _ Hs) in Hu. discriminate.
  - unfold compute_efficiency, getitem.
    rewrite !has_col_get in Hwf.
    destruct (get wob_col df) as [cw|]; simpl.
    + destruct (get flow_col df) as [cf|]; simpl; [discriminate|].
      exists flow_col. auto.
    + exists wob_col. auto.
Qed.

Lemma metrics_without_inputs_witness :
  exists m : derived_metrics float,
    metrics API_100 [(shaker_col, NumCol [50%float]);
                     (wob_col, NumCol [10%float])] = Ok m /\
    table m = [(shaker_col, NumCol [50%float]);
               (wob_col, NumCol [10%float])] /\
    is_ok (summary m) = false /\
    (exists c, solids_removal m = Err (KeyError c) /\
               (c = wob_col \/ c = flow_col)).
Proof.
  apply (@metrics_without_inputs float binary64 API_100); reflexivity.
Defined.



(** X14.  The mesh type never reaches the efficiency: two runs on one
    table with different mesh types draw the same efficiency chart.  On an
    upload that brings its own utilization column the mesh type reaches
    nothing at all: the two runs give the same metrics. *)
Theorem mesh_type_reach :
  forall (F : Type) (S : Scalar F) (mesh1 mesh2 : mesh_type) (df : frame F),
    (forall m1 m2 : derived_metrics F,
        metrics mesh1 df = Ok m1 -> metrics mesh2 df = Ok m2 ->
        solids_removal m1 = solids_removal m2) /\
    (has_col screen_col df = true ->
     metrics mesh1 df = metrics mesh2 df).
Proof.
  intros F S mesh1 mesh2 df. split.
  - intros m1 m2. unfold metrics, bind.
    destruct (derive_utilization (SCREEN_MESH_CAPACITY mesh1) df)
      as [df1|] eqn:H1; [|discriminate].
    destruct (derive_utilization (SCREEN_MESH_CAPACITY mesh2) df)
      as [df2|] eqn:H2; [|discriminate].
    intros [= <-] [= <-]. cbn [solids_removal].
    rewrite (compute_efficiency_derived _ _ H1),
      (compute_efficiency_derived _ _ H2).
    reflexivity.
  - intros Hs. unfold metrics, derive_utilization. rewrite Hs. reflexivity.
Qed.

Lemma mesh_type_reach_witness :
  (exists m1 m2 : derived_metrics float,
      metrics API_100 (sample float) = Ok m1 /\
      metrics API_200 (sample float) = Ok m2 /\
      solids_removal m1 = solids_removal m2) /\
  metrics API_100 with_utilization = metrics API_200 with_utilization.
Proof.
  destruct (@mesh_type_reach float binary64 API_100 API_200 (sample float))
    as [Heff _].
  destruct (@mesh_type_reach float binary64 API_100 API_200 with_utilization)
    as [_ Hall].
  split; [|exact (Hall eq_refl)].
  destruct (metrics API_100 (sample float)) as [m1|e1] eqn:H1;
    [|vm_compute in H1; discriminate].
  destruct (metrics API_200 (sample float)) as [m2|e2] eqn:H2;
    [|vm_compute in H2; discriminate].
  exists m1, m2. split; [reflexivity|]. split; [reflexivity|].
  exact (Heff m1 m2 eq_refl eq_refl).
Defined.

(** ** The singular row of the efficiency *)

(** [l / 0 * 100] in binary64, by the sign of [l]. *)
Lemma binary64_over_zero (l : float) :
  ((0 <? l)%float = true -> (l / 0 * 100)%float = infinity) /\
  ((l <? 0)%float = true -> (l / 0 * 100)%float = neg_infinity) /\
  ((0 <? l)%float = false -> (l <? 0)%float = false ->
   (l / 0 * 100)%float = nan).
Proof.
  rewrite !ltb_spec.
  assert (Hq : Prim2SF (l / 0 * 100)%float =
               SF64mul (SF64div (Prim2SF l) (Prim2SF 0%float))
                       (Prim2SF 100%float)).
  { rewrite mul_spec, div_spec. reflexivity. }
  change (Prim2SF 0%float) with (S754_zero false) in *.
  revert Hq. destruct (Prim2SF l) as [s|s| |s m e]; intros Hq.
  all: repeat split; intros; try discriminate; apply Prim2SF_inj; rewrite Hq.
  all: try (destruct s; try discriminate; vm_compute; reflexivity).
  all: reflexivity.
Qed.

(** X17.  In binary64 the guard [1e-5] moves the division by zero but does
    not remove it.  On float columns, a row whose in-rate [w * f / 100] is
    the opposite of the binary64 number [1e-5], so that the divisor
    [w * f / 100 + 1e-5] is zero, gets an efficiency without any
    exception: plus infinity for a positive load, minus infinity for a
    negative load, NaN for a load of zero or a missing load.  A weight on
    bit of -0.001 with a flow rate of 1 is such a row. *)
Theorem efficiency_singular_row :
  forall (df : frame float) (ws fs ls : list float) (i : nat)
         (w f l : float),
    get wob_col df = Some (NumCol ws) ->
    get flow_col df = Some (NumCol fs) ->
    get shaker_col df = Some (NumCol ls) ->
    nth_error ws i = Some w -> nth_error fs i = Some f ->
    nth_error ls i = Some l ->
    (w * f / 100 + 1e-5)%float = 0%float ->
    exists e : float,
      efficiency_row df i e /\
      ((0 <? l)%float = true -> e = infinity) /\
      ((l <? 0)%float = true -> e = neg_infinity) /\
      ((0 <? l)%float = false -> (l <? 0)%float = false -> e = nan).
Proof.
  intros df ws fs ls i w f l Hw Hf Hl Hwi Hfi Hli Hz.
  pose proof (efficiency_row_numeric _ _ Hw Hf Hl Hwi Hfi Hli) as Hrow.
  cbn [s_add s_mul s_div s_of_Z s_eps binary64] in Hrow.
  change (Binary64.of_Z 100) with 100%float in Hrow.
  rewrite Hz in Hrow.
  exists (l / 0 * 100)%float. split; [exact Hrow|].
  apply binary64_over_zero.
Qed.

Lemma efficiency_singular_row_witness :
  efficiency_row reversed_readings 0 infinity /\
  efficiency_row reversed_readings 1 neg_infinity /\
  efficiency_row reversed_readings 2 nan.
Proof.
  assert (H0 : exists e : float,
             efficiency_row reversed_readings 0 e /\
             ((0 <? 50)%float = true -> e = infinity) /\
             ((50 <? 0)%float = true -> e = neg_infinity) /\
             ((0 <? 50)%float = false -> (50 <? 0)%float = false ->
              e = nan)).
  { apply (@efficiency_singular_row reversed_readings
             [-0.001; -0.001; -0.001]%float [1; 1; 1]%float
             [50; -50; 0]%float 0%nat (-0.001)%float 1%float 50%float);
      reflexivity. }
  assert (H1 : exists e : float,
             efficiency_row reversed_readings 1 e /\
             ((0 <? -50)%float = true -> e = infinity) /\
             ((-50 <? 0)%float = true -> e = neg_infinity) /\
             ((0 <? -50)%float = false -> (-50 <? 0)%float = false ->
              e = nan)).
  { apply (@efficiency_singular_row reversed_readings
             [-0.001; -0.001; -0.001]%float [1; 1; 1]%float
             [50; -50; 0]%float 1%nat (-0.001)%float 1%float (-50)%float);
      reflexivity. }
  assert (H2 : exists e : float,
             efficiency_row reversed_readings 2 e /\
             ((0 <? 0)%float = true -> e = infinity) /\
             ((0 <? 0)%float = true -> e = neg_infinity) /\
             ((0 <? 0)%float = false -> (0 <? 0)%float = false ->
              e = nan)).
  { apply (@efficiency_singular_row reversed_readings
             [-0.001; -0.001; -0.001]%float [1; 1; 1]%float
             [50; -50; 0]%float 2%nat (-0.001)%float 1%float 0%float);
      reflexivity. }
  destruct H0 as [e0 [Hr0 [Hp0 _]]].
  destruct H1 as [e1 [Hr1 [_ [Hn1 _]]]].
  destruct H2 as [e2 [Hr2 [_ [_ Hz2]]]].
  rewrite (Hp0 eq_refl) in Hr0. rewrite (Hn1 eq_refl) in Hr1.
  rewrite (Hz2 eq_refl eq_refl) in Hr2.
  split; [exact Hr0 | split; [exact Hr1 | exact Hr2]].
Defined.

(** ** The pie *)

Section PieFacts.

Context {F : Type} `{Scalar F}.

Lemma compute_efficiency_ok_inv (df : frame F) (eff : list F) (p : pie F) :
  compute_efficiency df = Ok (eff, p) ->
  exists cw cf co r o,
    get wob_col df = Some cw /\ get flow_col df = Some cf /\
    rate_per_100 wob_col flow_col cw cf = Ok r /\
    get shaker_col df = Some co /\ as_num shaker_col co = Ok o /\
    eff = efficiency o r /\
    removed p = mean eff /\ losses p = lit 100 - mean eff.
Proof.
  unfold compute_efficiency, getitem, bind.
  destruct (get wob_col df) as [cw|]; [|discriminate].
  destruct (get flow_col df) as [cf|]; [|discriminate].
  destruct (rate_per_100 wob_col flow_col cw cf) as [r|] eqn:Er;
    [|discriminate].
  destruct (get shaker_col df) as [co|]; [|discriminate].
  destruct (as_num shaker_col co) as [o|] eqn:Eo; [|discriminate].
  intros [= <- <-]. exists cw, cf, co, r, o. simpl.
  repeat split; (reflexivity || assumption).
Qed.

Lemma length_efficiency (o r : list F) :
  List.length (efficiency o r) = Nat.min (List.length o) (List.length r).
Proof.
  unfold efficiency. rewrite length_map, length_zip_with, length_map.
  reflexivity.
Qed.

End PieFacts.

(** X19.  The efficiency series has one value for each row of the table:
    on a table whose columns have one length, its length is the number of
    rows. *)
Theorem efficiency_one_per_row :
  forall (F : Type) (S : Scalar F) (df : frame F) (eff : list F)
         (p : pie F),
    wf_frame df ->
    compute_efficiency df = Ok (eff, p) ->
    List.length eff = n_rows df.
Proof.
  intros F S df eff p Hwf Hc.
  destruct (compute_efficiency_ok_inv _ Hc)
    as [cw [cf [co [r [o [Hw [Hf [Hr [Ho [Hno [-> _]]]]]]]]]]].
  rewrite length_efficiency, (rate_per_100_length _ _ _ _ Hr),
    (as_num_length _ _ Hno).
  rewrite (wf_frame_get _ Hwf Hw), (wf_frame_get _ Hwf Hf),
    (wf_frame_get _ Hwf Ho).
  lia.
Qed.

Lemma efficiency_one_per_row_witness :
  List.length [249.9998750000625%float] = n_rows one_reading.
Proof.
  assert (Hwf : wf_frame one_reading) by (repeat constructor).
  exact (@efficiency_one_per_row float binary64 one_reading
           [249.9998750000625%float] one_reading_pie Hwf eq_refl).
Defined.

(** ** The table a run leaves *)

Section TableFacts.

Context {F : Type} `{Scalar F}.

Lemma wf_frame_filter_date (sel : option date) (df : frame F) :
  wf_frame df -> wf_frame (filter_date sel df).
Proof.
  intros Hwf. unfold filter_date.
  destruct (get "Date" df) as [c|] eqn:Hg; [|exact Hwf].
  apply wf_frame_filter_rows; [exact Hwf|].
  rewrite date_mask_length. apply (wf_frame_get _ Hwf Hg).
Qed.

Lemma wf_frame_derived (mesh_capacity : Z) (df df' : frame F) :
  wf_frame df ->
  derive_utilization mesh_capacity df = Ok df' ->
  wf_frame df' /\ n_rows df' = n_rows df.
Proof.
  intros Hwf Hd.
  destruct (derive_utilization_inv _ _ Hd)
    as [-> | [cw [cf [r [_ [Hgw [Hgf [Hr ->]]]]]]]];
    [split; [exact Hwf | reflexivity]|].
  assert (Hne : df <> []) by (intros ->; discriminate).
  assert (Hlen : List.length r = n_rows df).
  { rewrite (rate_per_100_length _ _ _ _ Hr), (wf_frame_get _ Hwf Hgw),
      (wf_frame_get _ Hwf Hgf).
    apply Nat.min_id. }
  assert (Hn1 : n_rows (setitem solids_col (NumCol r) df) = n_rows df)
    by (apply n_rows_setitem; assumption).
  assert (Hlen2 : col_len (NumCol (utilization mesh_capacity r))
                  = n_rows (setitem solids_col (NumCol r) df)).
  { simpl. rewrite length_utilization, Hn1. exact Hlen. }
  split.
  - apply wf_frame_setitem;
      [apply wf_frame_setitem; assumption | apply setitem_not_nil
       | exact Hlen2].
  - rewrite n_rows_setitem; [exact Hn1 | apply setitem_not_nil | exact Hlen2].
Qed.

End TableFacts.

(** X21.  A run keeps the table of one day in shape: on an upload whose
    columns have one length, the table that the run leaves has columns of
    one length, as many rows as the upload has readings of the selected
    date, and the selected date in every [Date] cell; the derivation
    neither adds nor removes a row. *)
Theorem dashboard_table_of_one_date :
  forall (F : Type) (S : Scalar F) (mesh : mesh_type) (d : date)
         (df : frame F) (ds : list date) (m : derived_metrics F),
    wf_frame df ->
    get "Date" df = Some (DateCol ds) ->
    dashboard mesh (Some d) df = Ok m ->
    wf_frame (table m) /\
    n_rows (table m) = List.length (filter (fun x => date_eqb x d) ds) /\
    get "Date" (table m) = Some (DateCol (repeat d (n_rows (table m)))).
Proof.
  intros F S mesh d df ds m Hwf Hg. unfold dashboard, metrics, bind.
  destruct (derive_utilization (SCREEN_MESH_CAPACITY mesh)
                               (filter_date (Some d) df))
    as [df'|] eqn:Hd; [|discriminate].
  intros [= <-]. cbn [table].
  destruct (wf_frame_derived _ (wf_frame_filter_date (Some d) Hwf) Hd)
    as [Hwf' Hn].
  assert (Hlen : List.length (map (fun x => date_eqb x d) ds) = n_rows df).
  { rewrite length_map. apply (wf_frame_get _ Hwf Hg). }
  assert (Hrows : n_rows df'
                  = List.length (filter (fun x => date_eqb x d) ds)).
  { rewrite Hn, (filter_date_Some _ _ Hg), (n_rows_filter_rows _ _ Hlen).
    apply count_true_map. }
  split; [exact Hwf'|]. split; [exact Hrows|].
  rewrite (derive_utilization_get_other _ _ Hd) by discriminate.
  rewrite (filter_date_Some _ _ Hg), get_filter_rows, Hg. simpl.
  rewrite take_mask_map, Hrows, <- filter_date_eqb_repeat. reflexivity.
Qed.

Lemma dashboard_table_of_one_date_witness :
  exists m : derived_metrics float,
    dashboard API_170 (Some (2024, 1, 2)) (two_days float) = Ok m /\
    wf_frame (table m) /\ n_rows (table m) = 2%nat /\
    get "Date" (table m) = Some (DateCol [(2024, 1, 2); (2024, 1, 2)]).
Proof.
  assert (Hwf : wf_frame (two_days float)) by (repeat constructor).
  destruct (dashboard API_170 (Some (2024, 1, 2)) (two_days float))
    as [m|e] eqn:Hm; [|vm_compute in Hm; discriminate].
  exists m. split; [reflexivity|].
  destruct (@dashboard_table_of_one_date float binary64 API_170 (2024, 1, 2)
              (two_days float)
              [(2024, 1, 2); (2024, 1, 1); (2024, 1, 2)] m Hwf eq_refl Hm)
    as [Hw [Hn Hd]].
  split; [exact Hw|]. split; [exact Hn|].
  rewrite Hd, Hn. reflexivity.
Defined.

(** ** Exact arithmetic: the statistics of finite readings *)

Lemma exact_ltb_lt (p q : Qc) :
  Exact.ltb (Fin p) (Fin q) = true <-> (p < q)%Qc.
Proof.
  simpl. unfold Qclt, Qccompare. rewrite Qlt_alt.
  destruct (p ?= q)%Q; split; congruence.
Qed.

Lemma exact_ltb_ge (p q : Qc) :
  Exact.ltb (Fin p) (Fin q) = false <-> (q <= p)%Qc.
Proof.
  rewrite <- not_true_iff_false, exact_ltb_lt.
  split; [apply Qcnot_lt_le | apply Qcle_not_lt].
Qed.

Lemma exact_sign_pos (q : Qc) : (0 < q)%Qc -> Exact.sign q = Gt.
Proof.
  unfold Exact.sign, Qclt, Qccompare. intros Hq.
  apply Qgt_alt. exact Hq.
Qed.

Lemma exact_valid_fin (qs : list Qc) :
  valid (map Fin qs) = map Fin qs.
Proof.
  unfold valid. induction qs as [|q qs IH]; simpl; [reflexivity|].
  f_equal. exact IH.
Qed.

Lemma exact_fold_min (qs : list Qc) (a : Qc) :
  exists r : Qc,
    fold_left (fun acc y : xnum => if y <? acc then y else acc)
              (map Fin qs) (Fin a) = Fin r /\
    (r <= a)%Qc /\ Forall (fun y => (r <= y)%Qc) qs.
Proof.
  revert a. induction qs as [|y qs IH]; intros a; cbn [fold_left map].
  - exists a. split; [reflexivity|]. split; [apply Qcle_refl | constructor].
  - destruct (s_ltb (Fin y) (Fin a)) eqn:E.
    + apply exact_ltb_lt in E.
      destruct (IH y) as [r [Hr [Hle Hall]]]. exists r.
      split; [exact Hr|]. split.
      * apply Qclt_le_weak. apply (Qcle_lt_trans _ _ _ Hle E).
      * constructor; assumption.
    + apply exact_ltb_ge in E.
      destruct (IH a) as [r [Hr [Hle Hall]]]. exists r.
      split; [exact Hr|]. split; [exact Hle|].
      constructor; [apply (Qcle_trans _ _ _ Hle E) | exact Hall].
Qed.

Lemma exact_fold_max (qs : list Qc) (a : Qc) :
  exists r : Qc,
    fold_left (fun acc y : xnum => if y >? acc then y else acc)
              (map Fin qs) (Fin a) = Fin r /\
    (a <= r)%Qc /\ Forall (fun y => (y <= r)%Qc) qs.
Proof.
  revert a. induction qs as [|y qs IH]; intros a; cbn [fold_left map].
  - exists a. split; [reflexivity|]. split; [apply Qcle_refl | constructor].
  - destruct (s_ltb (Fin a) (Fin y)) eqn:E.
    + apply exact_ltb_lt in E.
      destruct (IH y) as [r [Hr [Hle Hall]]]. exists r.
      split; [exact Hr|]. split.
      * apply Qclt_le_weak. apply (Qclt_le_trans _ _ _ E Hle).
      * constructor; assumption.
    + apply exact_ltb_ge in E.
      destruct (IH a) as [r [Hr [Hle Hall]]]. exists r.
      split; [exact Hr|]. split; [exact Hle|].
      constructor; [apply (Qcle_trans _ _ _ E Hle) | exact Hall].
Qed.

(** The number of readings as a rational. *)
Lemma exact_count_succ (n : nat) :
  Q2Qc (inject_Z (Z.of_nat (Datatypes.S n))) =
  (Q2Qc (inject_Z (Z.of_nat n)) + 1)%Qc.
Proof.
  apply Qc_is_canon. unfold Qcplus, Q2Qc. cbn [this].
  rewrite !Qred_correct, Nat2Z.inj_succ. unfold Z.succ.
  rewrite inject_Z_plus. reflexivity.
Qed.

Lemma exact_count_nonneg (n : nat) :
  (0 <= Q2Qc (inject_Z (Z.of_nat n)))%Qc.
Proof.
  unfold Qcle, Q2Qc. cbn [this]. rewrite !Qred_correct.
  unfold Qle. simpl. lia.
Qed.

Lemma exact_fold_sum (qs : list Qc) (a lo hi : Qc) :
  Forall (fun y => (lo <= y)%Qc /\ (y <= hi)%Qc) qs ->
  exists t : Qc,
    fold_left s_add (map Fin qs) (Fin a) = Fin t /\
    (a + Q2Qc (inject_Z (Z.of_nat (List.length qs))) * lo <= t)%Qc /\
    (t <= a + Q2Qc (inject_Z (Z.of_nat (List.length qs))) * hi)%Qc.
Proof.
  revert a. induction qs as [|y qs IH]; intros a Hall.
  - exists a. split; [reflexivity|]. simpl.
    change (Q2Qc (inject_Z 0)) with 0%Qc.
    split; qc_order; lra.
  - inversion Hall as [|? ? [Hlo Hhi] Hrest]; subst.
    destruct (IH (a + y)%Qc Hrest) as [t [Ht [Hl Hh]]].
    exists t. split; [exact Ht|].
    cbn [List.length]. rewrite exact_count_succ.
    set (n := Q2Qc (inject_Z (Z.of_nat (List.length qs)))) in *.
    clearbody n. split; qc_order; lra.
Qed.

(** Minimum, mean and maximum of one or more finite readings. *)
Lemma exact_stats_bracket (q : Qc) (qs : list Qc) :
  exists lo m hi : Qc,
    col_min (map Fin (q :: qs)) = Fin lo /\
    mean (map Fin (q :: qs)) = Fin m /\
    col_max (map Fin (q :: qs)) = Fin hi /\
    (lo <= m)%Qc /\ (m <= hi)%Qc /\
    Forall (fun y => (lo <= y)%Qc /\ (y <= hi)%Qc) (q :: qs).
Proof.
  destruct (exact_fold_min qs q) as [lo [Hmin [Hlq Hlall]]].
  destruct (exact_fold_max qs q) as [hi [Hmax [Hhq Hhall]]].
  assert (Hall : Forall (fun y => (lo <= y)%Qc /\ (y <= hi)%Qc) (q :: qs)).
  { constructor; [split; assumption|].
    rewrite Forall_forall in *. intros y Hy. split; auto. }
  destruct (exact_fold_sum 0%Qc Hall) as [t [Ht [Htl Hth]]].
  pose proof (exact_count_nonneg (List.length qs)) as Hn0.
  cbn [List.length] in Htl, Hth. rewrite exact_count_succ in Htl, Hth.
  assert (Hpos : (0 < Q2Qc (inject_Z (Z.of_nat (List.length qs))) + 1)%Qc).
  { set (n := Q2Qc (inject_Z (Z.of_nat (List.length qs)))) in *.
    clearbody n. qc_order. lra. }
  exists lo, (t / (Q2Qc (inject_Z (Z.of_nat (List.length qs))) + 1))%Qc, hi.
  split.
  { unfold col_min. rewrite exact_valid_fin. exact Hmin. }
  split.
  { unfold mean, col_sum. rewrite exact_valid_fin.
    cbn [map]. rewrite length_cons, length_map.
    change (Fin q :: map Fin qs) with (map Fin (q :: qs)).
    change (lit 0 : xnum) with (Fin 0%Qc). rewrite Ht.
    cbn [s_div s_of_Z exact]. unfold Exact.of_Z.
    rewrite exact_count_succ. unfold Exact.div.
    rewrite (exact_sign_pos Hpos). reflexivity. }
  split.
  { unfold col_max. rewrite exact_valid_fin. exact Hmax. }
  split; [|split; [|exact Hall]].
  - set (n := Q2Qc (inject_Z (Z.of_nat (List.length qs)))) in *.
    clearbody n. qc_order.
    assert (Hm : (t * / (n + 1) * (n + 1) == t)%Q) by (field; lra).
    nra.
  - set (n := Q2Qc (inject_Z (Z.of_nat (List.length qs)))) in *.
    clearbody n. qc_order.
    assert (Hm : (t * / (n + 1) * (n + 1) == t)%Q) by (field; lra).
    nra.
Qed.

(** X23.  In exact arithmetic, on finite readings, the drop table has a
    row exactly when the minimum shaker load that the summary shows is
    below -10. *)
Theorem drops_iff_minimum_below_threshold :
  forall (df drops : frame xnum) (s : stats xnum) (q : Qc) (qs : list Qc)
         (flagged : list xnum),
    summarize df = Ok s ->
    get shaker_col df = Some (NumCol (map Fin (q :: qs))) ->
    detect_drops df = Ok drops ->
    get shaker_col drops = Some (NumCol flagged) ->
    (flagged <> [] <-> (shaker_min s <? lit (-10)) = true).
Proof.
  intros df drops s q qs flagged Hs Hg Hd Hf.
  assert (Hfl : forall x : xnum,
             In x flagged <->
             In x (map Fin (q :: qs)) /\ (x <? lit (-10)) = true).
  { rewrite (detect_drops_numeric _ Hg) in Hd.
    assert (Hdr : drops = filter_rows (drop_mask (map Fin (q :: qs))) df)
      by congruence.
    rewrite Hdr, get_filter_rows, Hg in Hf.
    unfold option_map, col_filter, drop_mask in Hf.
    rewrite take_mask_map in Hf.
    assert (Hfe : flagged = filter (fun x : xnum => x <? lit (-10))
                                   (map Fin (q :: qs))) by congruence.
    rewrite Hfe. intros x.
    apply (filter_In (fun y : xnum => y <? lit (-10))). }
  assert (Hm : shaker_min s = col_min (map Fin (q :: qs))).
  { destruct (summarize_ok_columns _ Hs)
      as [cd [cl [cu [d [l [u [_ [_ [Hl [Hn [_ [_ [_ [_ [Hmin _]]]]]]]]]]]]]]].
    rewrite Hg in Hl. injection Hl as <-.
    cbn [as_num] in Hn. injection Hn as <-. exact Hmin. }
  destruct (exact_stats_bracket q qs)
    as [lo [m [hi [Elo [_ [_ [_ [_ Hall]]]]]]]].
  rewrite Hm, Elo. split.
  - intros Hne. destruct flagged as [|x rest]; [congruence|].
    destruct (proj1 (Hfl x) (or_introl eq_refl)) as [Hin Hlt].
    apply in_map_iff in Hin. destruct Hin as [y [<- Hy]].
    rewrite Forall_forall in Hall. destruct (Hall y Hy) as [Hlo _].
    unfold s_ltb, s_of_Z, exact, Exact.of_Z in *.
    rewrite exact_ltb_lt in *. apply (Qcle_lt_trans _ _ _ Hlo Hlt).
  - intros Hlt Hnil.
    assert (Hin : In (Fin lo) (map Fin (q :: qs))).
    { pose proof (col_min_In (map Fin (q :: qs))) as Hc.
      rewrite exact_valid_fin, Elo in Hc. apply Hc. discriminate. }
    assert (Hin' : In (Fin lo) flagged) by (apply Hfl; split; assumption).
    rewrite Hnil in Hin'. contradiction.
Qed.

Lemma drops_iff_minimum_below_threshold_witness :
  exists s : stats xnum,
    summarize (derived_sample xnum) = Ok s /\
    ([lit (-20) : xnum] <> [] <-> (shaker_min s <? lit (-10)) = true).
Proof.
  destruct (summarize (derived_sample xnum)) as [s|e] eqn:Hs;
    [|vm_compute in Hs; discriminate].
  exists s. split; [reflexivity|].
  assert (Hg : get shaker_col (derived_sample xnum)
               = Some (NumCol (map Fin [Q2Qc (inject_Z 50);
                                        Q2Qc (inject_Z (-20))])))
    by reflexivity.
  assert (Hd : detect_drops (derived_sample xnum)
               = Ok (filter_rows [false; true] (derived_sample xnum)))
    by reflexivity.
  assert (Hf : get shaker_col (filter_rows [false; true]
                                 (derived_sample xnum))
               = Some (NumCol [lit (-20)])) by reflexivity.
  exact (@drops_iff_minimum_below_threshold (derived_sample xnum) _ s _ _ _
           Hs Hg Hd Hf).
Defined.
